(** * multi-mind-chat: the Gemini service ([services/geminiService.ts])

    A shallow embedding of [generateResponse], of the router in front
    of it and of the platform functions they call, followed by the
    properties of the streaming decode loop, of the error
    classification and of the returned result.

    The sources hold the service twice, a revised and an unrevised
    copy that differ in the wording of their messages and in two
    details of the request; the embedding covers both.

    Conventions of the embedding:
    - a JavaScript string is the list of its UTF-16 code units;
    - a [Uint8Array] is a list of bytes;
    - the clock read by [performance.now()] counts integer ticks, and
      only an [await] lets it advance;
    - the caller's [onStreamChunk] is observed through the list of its
      invocations and returns normally;
    - [console.warn] and [console.error] are not observed. *)

From Stdlib Require Import ZArith List Bool Lia.
From Stdlib.Strings Require Import String Byte Ascii.
Import ListNotations.
Local Open Scope Z_scope.

Set Implicit Arguments.

(* ================================================================== *)
(** * JavaScript strings *)
(* ================================================================== *)

Module JsString.

(** A string value: its UTF-16 code units, each in [0, 65535]. *)
Definition jsstring := list Z.

Fixpoint eqb (a b : jsstring) : bool :=
  match a, b with
  | [], [] => true
  | x :: a', y :: b' => (x =? y) && eqb a' b'
  | _, _ => false
  end.

(** ** [TextDecoder] (UTF-8, replacement mode, BOM stripped)

    The decoder of the Encoding standard.  Its state is the code point
    under construction, the number of continuation bytes still needed
    and the range allowed for the next byte. *)
Record utf8_state := Utf8State
  { u_cp : Z; u_needed : nat; u_lower : Z; u_upper : Z }.

Definition utf8_initial : utf8_state := Utf8State 0 0 128 191.

Definition REPLACEMENT : Z := 65533.   (* U+FFFD *)
Definition BOM : Z := 65279.           (* U+FEFF *)

(** A byte met while no sequence is open. *)
Definition utf8_lead (b : Z) : list Z * utf8_state :=
  if b <=? 127 then ([b], utf8_initial)
  else if (194 <=? b) && (b <=? 223)
       then ([], Utf8State (Z.land b 31) 1 128 191)
  else if (224 <=? b) && (b <=? 239)
       then ([], Utf8State (Z.land b 15) 2
                   (if b =? 224 then 160 else 128)
                   (if b =? 237 then 159 else 191))
  else if (240 <=? b) && (b <=? 244)
       then ([], Utf8State (Z.land b 7) 3
                   (if b =? 240 then 144 else 128)
                   (if b =? 244 then 143 else 191))
  else ([REPLACEMENT], utf8_initial).

(** One byte.  A byte outside the allowed range closes the open
    sequence with U+FFFD and is then read again as a lead byte. *)
Definition utf8_step (st : utf8_state) (b : Z) : list Z * utf8_state :=
  match u_needed st with
  | O => utf8_lead b
  | S n =>
      if (u_lower st <=? b) && (b <=? u_upper st) then
        let cp := Z.lor (Z.shiftl (u_cp st) 6) (Z.land b 63) in
        match n with
        | O => ([cp], utf8_initial)
        | S _ => ([], Utf8State cp n 128 191)
        end
      else
        let '(out, st') := utf8_lead b in (REPLACEMENT :: out, st')
  end.

(** End of input: an open sequence yields one U+FFFD. *)
Definition utf8_flush (st : utf8_state) : list Z :=
  match u_needed st with O => [] | S _ => [REPLACEMENT] end.

Fixpoint utf8_run (st : utf8_state) (bs : list Z) : list Z :=
  match bs with
  | [] => utf8_flush st
  | b :: bs' => let '(out, st') := utf8_step st b in out ++ utf8_run st' bs'
  end.

(** The code points of a byte sequence. *)
Definition utf8_decode (bs : list byte) : list Z :=
  utf8_run utf8_initial (map (fun b => Z.of_N (Byte.to_N b)) bs).

Definition strip_bom (cps : list Z) : list Z :=
  match cps with
  | c :: rest => if c =? BOM then rest else cps
  | [] => []
  end.

(** Code points to UTF-16 code units. *)
Definition utf16_units (cp : Z) : list Z :=
  if cp <? 65536 then [cp]
  else [55296 + Z.shiftr (cp - 65536) 10; 56320 + Z.land (cp - 65536) 1023].

Definition utf16_encode (cps : list Z) : jsstring := flat_map utf16_units cps.

(** [new TextDecoder().decode(value)]: each call decodes its argument on
    its own (no [stream] option), drops a leading byte-order mark and
    replaces malformed input. *)
Definition TextDecoder_decode (value : list byte) : jsstring :=
  utf16_encode (strip_bom (utf8_decode value)).

(** A string literal of the source file, which is UTF-8 like this one. *)
Definition js (s : string) : jsstring :=
  utf16_encode (utf8_decode (list_byte_of_string s)).

(** ** [String.prototype] *)

(** WhiteSpace and LineTerminator code units, as [trim] removes them. *)
Definition isWhiteSpace (c : Z) : bool :=
  ((9 <=? c) && (c <=? 13)) || (c =? 32) || (c =? 160) || (c =? 5760)
  || ((8192 <=? c) && (c <=? 8202)) || (c =? 8232) || (c =? 8233)
  || (c =? 8239) || (c =? 8287) || (c =? 12288) || (c =? 65279).

Fixpoint trimStart (s : jsstring) : jsstring :=
  match s with
  | c :: s' => if isWhiteSpace c then trimStart s' else s
  | [] => []
  end.

Definition trimEnd (s : jsstring) : jsstring := rev (trimStart (rev s)).

Definition trim (s : jsstring) : jsstring := trimEnd (trimStart s).

Fixpoint startsWith (s prefix : jsstring) : bool :=
  match prefix, s with
  | [], _ => true
  | p :: prefix', c :: s' => (c =? p) && startsWith s' prefix'
  | _ :: _, [] => false
  end.

(** [s.slice(n)] for a non-negative [n]. *)
Definition slice (n : nat) (s : jsstring) : jsstring := skipn n s.

Fixpoint includes (s pat : jsstring) : bool :=
  startsWith s pat ||
  match s with
  | [] => false
  | _ :: s' => includes s' pat
  end.

(** [s.split(sep)] for a separator of one code unit: never empty. *)
Fixpoint split (sep : Z) (s : jsstring) : list jsstring :=
  match s with
  | [] => [[]]
  | c :: s' =>
      if c =? sep then [] :: split sep s'
      else match split sep s' with
           | l :: ls => (c :: l) :: ls
           | [] => [[c]]
           end
  end.

Definition LF : Z := 10.

(** Decimal digits of a non-negative integer, as [String(n)] prints it. *)
Fixpoint digits_fuel (fuel : nat) (n : Z) (acc : jsstring) : jsstring :=
  match fuel with
  | O => acc
  | S fuel' =>
      let acc' := (48 + n mod 10) :: acc in
      if n <? 10 then acc' else digits_fuel fuel' (n / 10) acc'
  end.

Definition decimal (n : Z) : jsstring :=
  digits_fuel (S (Z.to_nat (Z.log2 n))) n [].

End JsString.
Export JsString.

(* ================================================================== *)
(** * JavaScript values and [JSON.parse] *)
(* ================================================================== *)

Module Json.

(** The values the service handles: what [JSON.parse] builds, and
    [undefined], which property reads produce.  A number is kept as the
    literal that denotes it. *)
#[warnings="-register-all"]
Inductive JSValue : Type :=
| JUndefined
| JNull
| JBool (b : bool)
| JNumber (literal : jsstring)
| JString (s : jsstring)
| JArray (elements : list JSValue)
| JObject (members : list (jsstring * JSValue)).

(** ** Tokens *)

Inductive token : Type :=
| TLBrace | TRBrace | TLBracket | TRBracket | TColon | TComma
| TString (s : jsstring) | TNumber (literal : jsstring)
| TTrue | TFalse | TNull.

(** Where the lexer stands inside a number literal: an optional minus
    sign, an integer part without leading zero, an optional fraction and
    an optional exponent. *)
Inductive num_state : Type :=
| NMinus | NZero | NInt | NDot | NFrac | NExp | NExpSign | NExpDigits.

Inductive lex_mode : Type :=
| LDefault
| LString (rev_acc : jsstring)
| LEscape (rev_acc : jsstring)
| LUnicode (rev_acc : jsstring) (remaining : nat) (value : Z)
| LNumber (st : num_state) (rev_acc : jsstring)
| LWord (expected : jsstring) (tok : token).

Definition isDigit (c : Z) : bool := (48 <=? c) && (c <=? 57).

Definition hexValue (c : Z) : option Z :=
  if isDigit c then Some (c - 48)
  else if (97 <=? c) && (c <=? 102) then Some (c - 87)
  else if (65 <=? c) && (c <=? 70) then Some (c - 55)
  else None.

Definition num_accepting (st : num_state) : bool :=
  match st with
  | NZero | NInt | NFrac | NExpDigits => true
  | NMinus | NDot | NExp | NExpSign => false
  end.

(** The next state of a number literal, or [None] when [c] does not
    continue it. *)
Definition num_next (st : num_state) (c : Z) : option num_state :=
  let isE := (c =? 101) || (c =? 69) in
  match st with
  | NMinus => if c =? 48 then Some NZero
              else if isDigit c then Some NInt else None
  | NZero => if c =? 46 then Some NDot else if isE then Some NExp else None
  | NInt => if isDigit c then Some NInt
            else if c =? 46 then Some NDot
            else if isE then Some NExp else None
  | NDot => if isDigit c then Some NFrac else None
  | NFrac => if isDigit c then Some NFrac else if isE then Some NExp else None
  | NExp => if (c =? 43) || (c =? 45) then Some NExpSign
            else if isDigit c then Some NExpDigits else None
  | NExpSign => if isDigit c then Some NExpDigits else None
  | NExpDigits => if isDigit c then Some NExpDigits else None
  end.

Definition lex_default (c : Z) : option (list token * lex_mode) :=
  if (c =? 32) || (c =? 9) || (c =? 10) || (c =? 13) then Some ([], LDefault)
  else if c =? 123 then Some ([TLBrace], LDefault)
  else if c =? 125 then Some ([TRBrace], LDefault)
  else if c =? 91 then Some ([TLBracket], LDefault)
  else if c =? 93 then Some ([TRBracket], LDefault)
  else if c =? 58 then Some ([TColon], LDefault)
  else if c =? 44 then Some ([TComma], LDefault)
  else if c =? 34 then Some ([], LString [])
  else if c =? 45 then Some ([], LNumber NMinus [c])
  else if c =? 48 then Some ([], LNumber NZero [c])
  else if isDigit c then Some ([], LNumber NInt [c])
  else if c =? 116 then Some ([], LWord [114; 117; 101] TTrue)
  else if c =? 102 then Some ([], LWord [97; 108; 115; 101] TFalse)
  else if c =? 110 then Some ([], LWord [117; 108; 108] TNull)
  else None.

Definition lex_escape (c : Z) : option Z :=
  if (c =? 34) || (c =? 92) || (c =? 47) then Some c
  else if c =? 98 then Some 8
  else if c =? 102 then Some 12
  else if c =? 110 then Some 10
  else if c =? 114 then Some 13
  else if c =? 116 then Some 9
  else None.

Definition lex_step (m : lex_mode) (c : Z) : option (list token * lex_mode) :=
  match m with
  | LDefault => lex_default c
  | LString acc =>
      if c =? 34 then Some ([TString (rev acc)], LDefault)
      else if c =? 92 then Some ([], LEscape acc)
      else if c <? 32 then None
      else Some ([], LString (c :: acc))
  | LEscape acc =>
      if c =? 117 then Some ([], LUnicode acc 4 0)
      else match lex_escape c with
           | Some u => Some ([], LString (u :: acc))
           | None => None
           end
  | LUnicode acc n v =>
      match hexValue c with
      | None => None
      | Some d =>
          let v' := v * 16 + d in
          match n with
          | O | S O => Some ([], LString (v' :: acc))
          | S n' => Some ([], LUnicode acc n' v')
          end
      end
  | LNumber st acc =>
      match num_next st c with
      | Some st' => Some ([], LNumber st' (c :: acc))
      | None =>
          if num_accepting st then
            match lex_default c with
            | Some (toks, m') => Some (TNumber (rev acc) :: toks, m')
            | None => None
            end
          else None
      end
  | LWord expected tok =>
      match expected with
      | e :: rest =>
          if c =? e then
            match rest with
            | [] => Some ([tok], LDefault)
            | _ :: _ => Some ([], LWord rest tok)
            end
          else None
      | [] => None
      end
  end.

Definition lex_end (m : lex_mode) : option (list token) :=
  match m with
  | LDefault => Some []
  | LNumber st acc => if num_accepting st then Some [TNumber (rev acc)] else None
  | _ => None
  end.

Fixpoint lex (m : lex_mode) (s : jsstring) : option (list token) :=
  match s with
  | [] => lex_end m
  | c :: s' =>
      match lex_step m c with
      | None => None
      | Some (toks, m') =>
          match lex m' s' with
          | None => None
          | Some rest => Some (toks ++ rest)
          end
      end
  end.

(** ** Grammar: a pushdown automaton over the tokens *)

(** A container under construction. *)
Inductive frame : Type :=
| InArray (rev_elements : list JSValue)
| InObject (rev_members : list (jsstring * JSValue)) (key : jsstring).

Inductive parse_state : Type :=
| SValue (stack : list frame)
| SArrayFirst (stack : list frame)
| SArrayNext (rev_elements : list JSValue) (stack : list frame)
| SObjectFirst (stack : list frame)
| SObjectKey (rev_members : list (jsstring * JSValue)) (stack : list frame)
| SObjectColon (rev_members : list (jsstring * JSValue)) (key : jsstring)
               (stack : list frame)
| SObjectNext (rev_members : list (jsstring * JSValue)) (stack : list frame)
| SDone (v : JSValue).

(** A value is complete: it goes into the enclosing container. *)
Definition complete (v : JSValue) (stack : list frame) : parse_state :=
  match stack with
  | [] => SDone v
  | InArray es :: stack' => SArrayNext (v :: es) stack'
  | InObject ms k :: stack' => SObjectNext ((k, v) :: ms) stack'
  end.

Definition parse_value (stack : list frame) (t : token) : option parse_state :=
  match t with
  | TString s => Some (complete (JString s) stack)
  | TNumber n => Some (complete (JNumber n) stack)
  | TTrue => Some (complete (JBool true) stack)
  | TFalse => Some (complete (JBool false) stack)
  | TNull => Some (complete JNull stack)
  | TLBracket => Some (SArrayFirst stack)
  | TLBrace => Some (SObjectFirst stack)
  | TRBrace | TRBracket | TColon | TComma => None
  end.

Definition parse_step (st : parse_state) (t : token) : option parse_state :=
  match st, t with
  | SValue stack, _ => parse_value stack t
  | SArrayFirst stack, TRBracket => Some (complete (JArray []) stack)
  | SArrayFirst stack, _ => parse_value (InArray [] :: stack) t
  | SArrayNext es stack, TComma => Some (SValue (InArray es :: stack))
  | SArrayNext es stack, TRBracket => Some (complete (JArray (rev es)) stack)
  | SObjectFirst stack, TRBrace => Some (complete (JObject []) stack)
  | SObjectFirst stack, TString k => Some (SObjectColon [] k stack)
  | SObjectKey ms stack, TString k => Some (SObjectColon ms k stack)
  | SObjectColon ms k stack, TColon => Some (SValue (InObject ms k :: stack))
  | SObjectNext ms stack, TComma => Some (SObjectKey ms stack)
  | SObjectNext ms stack, TRBrace => Some (complete (JObject (rev ms)) stack)
  | _, _ => None
  end.

Fixpoint parse_tokens (st : parse_state) (ts : list token) : option JSValue :=
  match ts with
  | [] => match st with SDone v => Some v | _ => None end
  | t :: ts' =>
      match parse_step st t with
      | Some st' => parse_tokens st' ts'
      | None => None
      end
  end.

(** [JSON.parse(text)]: the value, or [None] where it throws a
    [SyntaxError]. *)
Definition JSON_parse (text : jsstring) : option JSValue :=
  match lex LDefault text with
  | Some ts => parse_tokens (SValue []) ts
  | None => None
  end.

(** JSON text of this file is written with ['] for the quotation mark. *)
Definition json (s : string) : jsstring :=
  map (fun c => if c =? 39 then 34 else c) (js s).

End Json.
Export Json.

(* ================================================================== *)
(** * Exceptions, the host, and the operations on values *)
(* ================================================================== *)

(** What a [throw] carries, as the [catch] clause of the service tells
    them apart: an [Error] instance with its message, or anything else. *)
Inductive Thrown : Type :=
| ErrorObject (message : jsstring)
| OtherValue.

(** The outcome of evaluating an expression. *)
Inductive Completion (A : Type) : Type :=
| Normal (a : A)
| Throw (e : Thrown).
Arguments Normal {A} a.
Arguments Throw {A} e.

Definition bindC {A B} (c : Completion A) (k : A -> Completion B) : Completion B :=
  match c with
  | Normal a => k a
  | Throw e => Throw e
  end.

Notation "'let*' x ':=' c 'in' k" := (bindC c (fun x => k))
  (at level 10, x name, c at level 100, k at level 200).

(** The [TypeError]s the service can run into. *)
Inductive TypeErrorKind : Type :=
| ReadOfNullish (base : JSValue) (property : jsstring)
| NotAFunction
| NoPrimitiveValue.

(** An HTTP request as [fetch] receives it; [req_body] is the value
    handed to [JSON.stringify]. *)
Record Request : Type := mkRequest
  { req_url : jsstring;
    req_method : jsstring;
    req_headers : list (jsstring * jsstring);
    req_body : JSValue }.

(** The body of a response as the transport delivers it: the successive
    reads, each with the time it takes and the bytes it yields, then the
    last read, which reports the end of the stream or fails. *)
Record Body : Type := mkBody
  { reads : list (Z * list byte);
    end_latency : Z;
    ending : option Thrown }.

Record Response : Type := mkResponse
  { status : Z;
    statusText : jsstring;
    body : option Body }.

(** [response.ok] *)
Definition ok (r : Response) : bool := (200 <=? status r) && (status r <=? 299).

(** The host of a call: the parts of the JavaScript engine whose results
    are the engine's to choose or to tabulate, and the network.
    - [Number_toString] prints the number a literal denotes;
    - [String_toLowerCase] applies the Unicode case mapping;
    - [TypeError_message] and [SyntaxError_message] word the engine's
      errors (the second from the text [JSON.parse] rejected);
    - [fetch_reply] says how long a request takes and how it settles. *)
Class Host : Type := mkHost
  { Number_toString : jsstring -> jsstring;
    String_toLowerCase : jsstring -> jsstring;
    TypeError_message : TypeErrorKind -> jsstring;
    SyntaxError_message : jsstring -> jsstring;
    fetch_reply : Request -> Z * Completion Response }.

Module JsOps.
Section WithHost.
Context {host : Host}.

Definition isNullish (v : JSValue) : bool :=
  match v with
  | JUndefined | JNull => true
  | _ => false
  end.

(** The member of an object literal read under [name]: where a key is
    repeated, the last one counts. *)
Definition lookup (name : jsstring) (members : list (jsstring * JSValue)) : JSValue :=
  fold_left (fun found m => if eqb (fst m) name then snd m else found)
            members JUndefined.

(** [v.name], for a [name] that no prototype defines and that is no
    index ([candidates], [content], [parts], [text], [error],
    [message]). *)
Definition getMember (v : JSValue) (name : jsstring) : Completion JSValue :=
  match v with
  | JUndefined | JNull =>
      Throw (ErrorObject (TypeError_message (ReadOfNullish v name)))
  | JObject ms => Normal (lookup name ms)
  | _ => Normal JUndefined
  end.

(** [v[0]] *)
Definition getIndex0 (v : JSValue) : Completion JSValue :=
  match v with
  | JUndefined | JNull =>
      Throw (ErrorObject (TypeError_message (ReadOfNullish v [48])))
  | JArray es => Normal (match es with e :: _ => e | [] => JUndefined end)
  | JString s => Normal (match s with c :: _ => JString [c] | [] => JUndefined end)
  | JObject ms => Normal (lookup [48] ms)
  | _ => Normal JUndefined
  end.

Definition hasOwn (name : jsstring) (members : list (jsstring * JSValue)) : bool :=
  existsb (fun m => eqb (fst m) name) members.

(** [Array.prototype.join]: [undefined] and [null] elements print as the
    empty string, the others through [str]. *)
Definition join_with (str : JSValue -> Completion jsstring) (sep : jsstring)
  : list JSValue -> Completion jsstring :=
  fix go (es : list JSValue) : Completion jsstring :=
    match es with
    | [] => Normal []
    | e :: rest =>
        let* s := (if isNullish e then Normal [] else str e) in
        match rest with
        | [] => Normal s
        | _ :: _ => let* r := go rest in Normal (s ++ sep ++ r)
        end
    end.

(** [ToString].  An array prints through [join(",")]; an object prints
    as [[object Object]] unless a member of its own hides [toString],
    in which case no method yields a primitive. *)
Fixpoint ToString (v : JSValue) : Completion jsstring :=
  match v with
  | JUndefined => Normal (js "undefined")
  | JNull => Normal (js "null")
  | JBool true => Normal (js "true")
  | JBool false => Normal (js "false")
  | JNumber lit => Normal (Number_toString lit)
  | JString s => Normal s
  | JArray es => join_with ToString [44] es
  | JObject ms =>
      if hasOwn (js "toString") ms
      then Throw (ErrorObject (TypeError_message NoPrimitiveValue))
      else Normal (js "[object Object]")
  end.

Definition Array_join (es : list JSValue) (sep : jsstring) : Completion jsstring :=
  join_with ToString sep es.

(** [ToBoolean] *)
Definition ToBoolean (v : JSValue) : bool :=
  match v with
  | JUndefined | JNull => false
  | JBool b => b
  | JNumber lit => negb (eqb (Number_toString lit) [48])
  | JString s => match s with [] => false | _ :: _ => true end
  | JArray _ | JObject _ => true
  end.

Fixpoint mapC {A B} (f : A -> Completion B) (xs : list A) : Completion (list B) :=
  match xs with
  | [] => Normal []
  | x :: xs' => let* y := f x in let* ys := mapC f xs' in Normal (y :: ys)
  end.

(** [v.map(f)]: [map] is a function on arrays only. *)
Definition Array_map (v : JSValue) (f : JSValue -> Completion JSValue)
  : Completion (list JSValue) :=
  match v with
  | JArray es => mapC f es
  | _ => Throw (ErrorObject (TypeError_message NotAFunction))
  end.

(** [JSON.parse(text)] with its exception. *)
Definition JSON_parse_throwing (text : jsstring) : Completion JSValue :=
  match JSON_parse text with
  | Some v => Normal v
  | None => Throw (ErrorObject (SyntaxError_message text))
  end.

End WithHost.
End JsOps.
Export JsOps.

(* ================================================================== *)
(** * The state of a call and its monad *)
(* ================================================================== *)

(** One invocation of the caller's [onStreamChunk]. *)
Record StreamCall : Type := mkStreamCall
  { newChunk : jsstring;
    fullTextSoFar : jsstring;
    isComplete : bool }.

(** What a call changes outside itself: the clock it lets run while it
    awaits, the requests it has sent, the invocations of the callback in
    the order they were made, and the lock it holds on the body reader. *)
Record State : Type := mkState
  { now : Z;
    requests : list Request;
    calls : list StreamCall;
    readerLocked : bool }.

(** A statement: it changes the state and completes or throws. *)
Definition M (A : Type) : Type := State -> Completion A * State.

Definition ret {A} (a : A) : M A := fun st => (Normal a, st).

Definition throw {A} (e : Thrown) : M A := fun st => (Throw e, st).

Definition bind {A B} (m : M A) (k : A -> M B) : M B :=
  fun st =>
    match m st with
    | (Normal a, st') => k a st'
    | (Throw e, st') => (Throw e, st')
    end.

Notation "x <- m ;; k" := (bind m (fun x => k))
  (at level 61, m at next level, right associativity).
Notation "m ;; k" := (bind m (fun _ => k))
  (at level 61, right associativity).

(** An expression evaluated inside a statement. *)
Definition eval {A} (c : Completion A) : M A := fun st => (c, st).

(** [try { body } catch (e) { handler e }] *)
Definition tryCatch {A} (body : M A) (handler : Thrown -> M A) : M A :=
  fun st =>
    match body st with
    | (Normal a, st') => (Normal a, st')
    | (Throw e, st') => handler e st'
    end.

(** [try { body } finally { cleanup }] *)
Definition tryFinally {A} (body : M A) (cleanup : M unit) : M A :=
  fun st =>
    match body st with
    | (r, st') =>
        match cleanup st' with
        | (Normal _, st'') => (r, st'')
        | (Throw e, st'') => (Throw e, st'')
        end
    end.

(** [performance.now()] *)
Definition performance_now : M Z := fun st => (Normal (now st), st).

(** An [await] that takes [dt] ticks; the code between two of them
    takes none. *)
Definition elapse (dt : Z) : M unit :=
  fun st => (Normal tt, mkState (now st + dt) (requests st) (calls st) (readerLocked st)).

Definition setReaderLocked (b : bool) : M unit :=
  fun st => (Normal tt, mkState (now st) (requests st) (calls st) b).

(** [onStreamChunk(newChunk, fullText, isComplete)] *)
Definition call_onStreamChunk (chunk fullText : jsstring) (complete : bool) : M unit :=
  fun st => (Normal tt,
             mkState (now st) (requests st)
                     (calls st ++ [mkStreamCall chunk fullText complete])
                     (readerLocked st)).

Section Fetch.
Context {host : Host}.

(** [await fetch(url, init)] *)
Definition fetch (req : Request) : M Response :=
  fun st =>
    let '(dt, outcome) := fetch_reply req in
    (outcome, mkState (now st + dt) (requests st ++ [req]) (calls st) (readerLocked st)).

Definition bodyOf (r : Response) : Body :=
  match body r with
  | Some b => b
  | None => mkBody [] 0 None
  end.

Definition total_latency (b : Body) : Z :=
  fold_right (fun rd acc => fst rd + acc) (end_latency b) (reads b).

(** What reading a whole body as JSON settles with: the failure of the
    transport, or the bytes decoded as UTF-8 and parsed. *)
Definition bodyJson (b : Body) : Completion JSValue :=
  match ending b with
  | Some e => Throw e
  | None => JSON_parse_throwing (TextDecoder_decode (List.concat (map snd (reads b))))
  end.

(** [await response.json()] *)
Definition Response_json (r : Response) : M JSValue :=
  elapse (total_latency (bodyOf r)) ;;
  eval (bodyJson (bodyOf r)).

End Fetch.

(* ================================================================== *)
(** * The Gemini service *)
(* ================================================================== *)

Module GeminiService.

(** The two copies of the service in the sources. *)
Inductive Revision : Type :=
| Revised      (* the copy headed [services/geminiService.ts] *)
| Unrevised.   (* the copy headed [Gemini API service] *)

(** A literal that the two copies word differently. *)
Definition worded (v : Revision) (revised unrevised : string) : jsstring :=
  js (match v with Revised => revised | Unrevised => unrevised end).

(** [interface GeminiResponse] *)
Record GeminiResponse : Type := mkGeminiResponse
  { text : jsstring;
    durationMs : Z;
    error : option jsstring }.

(** The parameters of [generateResponse].  An optional parameter left
    out is [None]; [onStreamChunk] says whether the caller passes a
    callback, whose invocations the state records. *)
Record Args : Type := mkArgs
  { prompt : jsstring;
    modelName : jsstring;
    systemInstruction : option jsstring;
    shouldUseReducedCapacity : bool;
    imagePart : option (jsstring * jsstring);   (* mimeType, data *)
    customBaseUrl : option jsstring;
    apiKey : option jsstring;
    onStreamChunk : bool }.

Definition DEFAULT_GEMINI_API_BASE : jsstring :=
  js "https://generativelanguage.googleapis.com/v1beta".

(** Truthiness of an optional string parameter. *)
Definition truthy (o : option jsstring) : bool :=
  match o with
  | Some (_ :: _) => true
  | _ => false
  end.

(** [!apiKey?.trim()] *)
Definition apiKeyMissing (key : option jsstring) : bool :=
  match key with
  | None => true
  | Some k => match trim k with [] => true | _ :: _ => false end
  end.

(** An optional string inside a template literal. *)
Definition interpolated (o : option jsstring) : jsstring :=
  match o with Some s => s | None => js "undefined" end.

Definition requestBody (v : Revision) (a : Args) : JSValue :=
  let userParts :=
    JObject [(js "text", JString (prompt a))] ::
    match imagePart a with
    | Some (mimeType, data) =>
        [JObject [(js "inlineData",
                   JObject [(js "mimeType", JString mimeType);
                            (js "data", JString data)])]]
    | None => []
    end in
  let contents :=
    JArray [JObject [(js "role", JString (js "user"));
                     (js "parts", JArray userParts)]] in
  let reduced := shouldUseReducedCapacity a in
  let instruction :=
    JArray [JObject [(js "text", JString (interpolated (systemInstruction a)))]] in
  JObject
    ([(js "contents", contents);
      (js "generationConfig",
       JObject [(js "temperature", JNumber (js (if reduced then "0.3" else "0.7")));
                (js "maxOutputTokens", JNumber (js (if reduced then "1000" else "4000")))])]
     ++ (if truthy (systemInstruction a)
         then match v with
              | Revised =>
                  [(js "system_instruction", JObject [(js "parts", instruction)])]
              | Unrevised =>
                  [(js "systemInstruction",
                    JObject [(js "role", JString (js "user"));
                             (js "parts", instruction)])]
              end
         else [])).

Definition requestUrl (v : Revision) (a : Args) : jsstring :=
  let apiBase := if truthy (customBaseUrl a) then interpolated (customBaseUrl a)
                 else DEFAULT_GEMINI_API_BASE in
  let endpoint := if onStreamChunk a then js "streamGenerateContent"
                  else js "generateContent" in
  apiBase ++ js "/models/" ++ modelName a ++ js ":" ++ endpoint
          ++ js "?key=" ++ interpolated (apiKey a)
          ++ match v with
             | Revised => if onStreamChunk a then js "&alt=sse" else []
             | Unrevised => []
             end.

(** The first argument of [fetch] and its options. *)
Definition request (v : Revision) (a : Args) : Request :=
  mkRequest (requestUrl v a) (js "POST")
            [(js "Content-Type", js "application/json")]
            (requestBody v a).

(** The [catch] clause, after its duration is taken. *)
Definition recover (v : Revision) (a : Args) (durationMs : Z) (error : Thrown)
  : GeminiResponse :=
  match error with
  | ErrorObject message =>
      if includes message (js "API密钥") || includes message (js "401")
         || includes message (js "Unauthorized") then
        mkGeminiResponse
          (worded v "API密钥无效或已过期。请检查您的 Gemini API 密钥配置。"
                    "API密钥无效或已过期。请检查您的Gemini API密钥配置。")
          durationMs (Some (js "API key not valid"))
      else if includes message (js "429") || includes message (js "Rate limit") then
        mkGeminiResponse (js "API调用频率超限，请稍后重试。")
                         durationMs (Some (js "Rate limit exceeded"))
      else if includes message (js "404") || includes message (js "模型") then
        mkGeminiResponse
          (js "模型 " ++ modelName a
              ++ worded v " 不存在或无权访问。请检查模型名称或 API 权限。"
                          " 不存在或无权访问。请检查模型名称或API权限。")
          durationMs (Some (js "Model not found"))
      else if includes message (js "网络") || includes message (js "fetch") then
        mkGeminiResponse (worded v "网络连接错误，请检查网络后重试。"
                                   "网络连接错误，请检查网络连接后重试。")
                         durationMs (Some (js "Network error"))
      else
        mkGeminiResponse
          (worded v "与 Gemini 通信时出错: " "与Gemini通信时出错: " ++ message)
          durationMs (Some message)
  | OtherValue =>
      mkGeminiResponse (worded v "与 Gemini 通信时发生未知错误。"
                                 "与Gemini通信时发生未知错误。")
                       durationMs (Some (js "Unknown Gemini error"))
  end.

Section WithHost.
Context {host : Host}.

(** [x.candidates?.[0]?.content?.parts?.map((p) => p.text).join('') || '']:
    a nullish link ends the whole chain with [undefined], which [||]
    turns into the empty string. *)
Definition candidatesText (x : JSValue) : Completion jsstring :=
  let* candidates := getMember x (js "candidates") in
  if isNullish candidates then Normal [] else
  let* first := getIndex0 candidates in
  if isNullish first then Normal [] else
  let* content := getMember first (js "content") in
  if isNullish content then Normal [] else
  let* parts := getMember content (js "parts") in
  if isNullish parts then Normal [] else
  let* texts := Array_map parts (fun p => getMember p (js "text")) in
  let* joined := Array_join texts [] in
  Normal (match joined with [] => [] | _ :: _ => joined end).

(** The body of the [try] inside the [for] loop: one payload. *)
Definition payload (fullText jsonStr : jsstring) : M jsstring :=
  tryCatch
    (parsed <- eval (JSON_parse_throwing jsonStr) ;;
     text <- eval (candidatesText parsed) ;;
     match text with
     | _ :: _ =>
         let fullText' := fullText ++ text in
         call_onStreamChunk text fullText' false ;;
         ret fullText'
     | [] => ret fullText
     end)
    (fun e => (* console.warn *) ret fullText).

(** [for (const line of lines) { ... }]: the value of [fullText] after
    the loop.  A line that is no data line is passed over ([continue]
    in the revised copy, the [if] around the rest of the body in the
    other); [break] leaves the lines that remain. *)
Fixpoint for_lines (fullText : jsstring) (lines : list jsstring) : M jsstring :=
  match lines with
  | [] => ret fullText
  | line :: rest =>
      let trimmed := trim line in
      if negb (startsWith trimmed (js "data: ")) then for_lines fullText rest
      else
        let jsonStr := slice 6 trimmed in
        if eqb jsonStr (js "[DONE]") then
          call_onStreamChunk [] fullText true ;;
          ret fullText
        else
          fullText' <- payload fullText jsonStr ;;
          for_lines fullText' rest
  end.

(** [while (true) { ... }]: one turn per read of the transport. *)
Fixpoint while_reading (b : Body) (fullText : jsstring)
         (pending : list (Z * list byte)) : M jsstring :=
  match pending with
  | [] =>
      elapse (end_latency b) ;;
      match ending b with
      | Some e => throw e
      | None => (* done *) ret fullText
      end
  | (dt, value) :: pending' =>
      elapse dt ;;
      let chunk := TextDecoder_decode value in
      let lines := split LF chunk in
      fullText' <- for_lines fullText lines ;;
      while_reading b fullText' pending'
  end.

(** The streaming branch. *)
Definition readStream (b : Body) : M jsstring :=
  setReaderLocked true ;;
  tryFinally (while_reading b [] (reads b)) (setReaderLocked false).

(** [errorData.error?.message || response.statusText] *)
Definition errorMessageOf (errorData : JSValue) (response : Response)
  : Completion JSValue :=
  let* err := getMember errorData (js "error") in
  let* message := (if isNullish err then Normal JUndefined
                   else getMember err (js "message")) in
  Normal (if ToBoolean message then message else JString (statusText response)).

(** [if (!response.ok) { ... }]: every path through it throws. *)
Definition rejectStatus (a : Args) (response : Response) : M unit :=
  errorData <- tryCatch (Response_json response) (fun _ => ret (JObject [])) ;;
  errorMessage <- eval (errorMessageOf errorData response) ;;
  if status response =? 401 then
    m <- eval (ToString errorMessage) ;;
    throw (ErrorObject (js "API密钥无效或已过期: " ++ m))
  else if status response =? 429 then
    m <- eval (ToString errorMessage) ;;
    throw (ErrorObject (js "API调用频率超限: " ++ m))
  else if status response =? 404 then
    throw (ErrorObject (js "模型不存在或无权访问: " ++ modelName a))
  else
    m <- eval (ToString errorMessage) ;;
    throw (ErrorObject (js "Gemini API 错误 (" ++ decimal (status response)
                           ++ js "): " ++ m)).

(** The [try] block. *)
Definition attempt (v : Revision) (a : Args) (startTime : Z) : M GeminiResponse :=
  (if apiKeyMissing (apiKey a)
   then throw (ErrorObject (worded v "API密钥未设置。请配置您的 Gemini API 密钥。"
                                     "API密钥未设置。请配置您的Gemini API密钥。"))
   else ret tt) ;;
  response <- fetch (request v a) ;;
  (if negb (ok response) then rejectStatus a response else ret tt) ;;
  t <- performance_now ;;
  let durationMs := t - startTime in
  fullText <-
    match onStreamChunk a, body response with
    | true, Some b => readStream b
    | _, _ =>
        data <- Response_json response ;;
        eval (candidatesText data)
    end ;;
  match trim fullText with
  | [] => throw (ErrorObject (worded v "AI 响应为空，请检查模型配置或重试。"
                                       "AI响应为空，请检查模型配置或重试"))
  | _ :: _ => ret (mkGeminiResponse fullText durationMs None)
  end.

(** [export const generateResponse = async (...) => { ... }] *)
Definition generateResponse (v : Revision) (a : Args) : M GeminiResponse :=
  startTime <- performance_now ;;
  tryCatch (attempt v a startTime)
           (fun error =>
              t <- performance_now ;;
              ret (recover v a (t - startTime) error)).

End WithHost.
End GeminiService.
Export GeminiService.

(* ================================================================== *)
(** * The router in front of the services *)
(* ================================================================== *)

Module AiService.
Section WithHost.
Context {host : Host}.

(** The OpenAI service, [./openaiService], is not among the sources. *)
Variable generateOpenAIResponse : Args -> M GeminiResponse.

(** Whether the router hands the call to the Gemini service. *)
Definition routesToGemini (a : Args) : bool :=
  let base := String_toLowerCase
                (if truthy (customBaseUrl a) then interpolated (customBaseUrl a) else []) in
  let model := String_toLowerCase (modelName a) in
  includes base (js "generativelanguage.googleapis.com") || includes model (js "gemini").

(** The router's [generateResponse], importing copy [v] of the Gemini
    service. *)
Definition generateResponse (v : Revision) (a : Args) : M GeminiResponse :=
  if routesToGemini a then GeminiService.generateResponse v a
  else generateOpenAIResponse a.

End WithHost.
End AiService.

(* ================================================================== *)
(** * Reading the service: frames, scans and alignment *)
(* ================================================================== *)

Module DecodeLoop.

(** The state with [evs] more invocations of the callback. *)
Definition addCalls (st : State) (evs : list StreamCall) : State :=
  mkState (now st) (requests st) (calls st ++ evs) (readerLocked st).

(** The state after [dt] more ticks and [evs] more invocations. *)
Definition later (st : State) (dt : Z) (evs : list StreamCall) : State :=
  mkState (now st + dt) (requests st) (calls st ++ evs) (readerLocked st).

(** The fragments handed to [onStreamChunk], in order. *)
Definition fragments (st : State) : list jsstring := map newChunk (calls st).

Definition readsLatency (pending : list (Z * list byte)) : Z :=
  fold_right (fun rd acc => fst rd + acc) 0 pending.

(** A line that gets past the test for the [data: ] prefix. *)
Definition isData (trimmed : jsstring) : bool := startsWith trimmed (js "data: ").

(** The payloads of the data lines among [lines], in order. *)
Definition framesOfLines (lines : list jsstring) : list jsstring :=
  map (slice 6) (filter isData (map trim lines)).

(** The payloads of a text, line by line. *)
Definition framesOfText (s : jsstring) : list jsstring := framesOfLines (split LF s).

(** The payloads one read of the transport yields. *)
Definition framesOf (value : list byte) : list jsstring :=
  framesOfText (TextDecoder_decode value).

Definition isSentinel (payload : jsstring) : bool := eqb payload (js "[DONE]").

(** No frame follows a sentinel. *)
Fixpoint sentinelLast (frames : list jsstring) : Prop :=
  match frames with
  | [] => True
  | f :: rest => (isSentinel f = true -> rest = []) /\ sentinelLast rest
  end.

(** The frames are frames other than the sentinel, then the sentinel. *)
Fixpoint terminatedBySentinel (frames : list jsstring) : bool :=
  match frames with
  | [] => false
  | f :: rest =>
      match rest with
      | [] => isSentinel f
      | _ :: _ => negb (isSentinel f) && terminatedBySentinel rest
      end
  end.

Definition LFbyte : byte := x0a.

Definition endsWithLF (value : list byte) : bool :=
  match rev value with
  | b :: _ => Byte.eqb b LFbyte
  | [] => false
  end.

(** Every read but the last ends with a line feed. *)
Fixpoint lineAligned (values : list (list byte)) : bool :=
  match values with
  | [] => true
  | v :: rest =>
      match rest with
      | [] => true
      | _ :: _ => endsWithLF v && lineAligned rest
      end
  end.

(** Every decoder state that can arise asks for a byte above ASCII. *)
Definition asksHigh (st : utf8_state) : Prop := 128 <= u_lower st.

(** What the [catch] clause looks for before it looks for a missing
    model. *)
Definition marksOfKeyOrRate (s : jsstring) : bool :=
  includes s (js "API密钥") || includes s (js "401") || includes s (js "Unauthorized")
  || includes s (js "429") || includes s (js "Rate limit").

Section WithHost.
Context {host : Host}.

(** The text a payload contributes: what [JSON.parse] and the chain
    yield, nothing where either throws. *)
Definition delta (jsonStr : jsstring) : jsstring :=
  match bindC (JSON_parse_throwing jsonStr) candidatesText with
  | Normal t => t
  | Throw _ => []
  end.

(** The accumulated text and the invocations after the frames of one
    read, from the accumulated text before. *)
Fixpoint scan (fullText : jsstring) (frames : list jsstring)
  : jsstring * list StreamCall :=
  match frames with
  | [] => (fullText, [])
  | f :: rest =>
      if isSentinel f then (fullText, [mkStreamCall [] fullText true])
      else match delta f with
           | [] => scan fullText rest
           | _ :: _ =>
               let fullText' := fullText ++ delta f in
               let '(final, evs) := scan fullText' rest in
               (final, mkStreamCall (delta f) fullText' false :: evs)
           end
  end.

(** The same over the successive reads. *)
Fixpoint scanReads (fullText : jsstring) (reads : list (list jsstring))
  : jsstring * list StreamCall :=
  match reads with
  | [] => (fullText, [])
  | fs :: rest =>
      let '(fullText', evs) := scan fullText fs in
      let '(final, evs') := scanReads fullText' rest in
      (final, evs ++ evs')
  end.

(** The value of [errorData] when the status is bad: the body as JSON,
    or [{}] where reading it fails. *)
Definition errorDataOf (response : Response) : JSValue :=
  match bodyJson (bodyOf response) with
  | Normal v => v
  | Throw _ => JObject []
  end.

End WithHost.
End DecodeLoop.
Export DecodeLoop.

(* ================================================================== *)
(** * A host and inputs for the examples *)
(* ================================================================== *)

Module Sample.

(** Bytes of a body, written with ['] for the quotation mark. *)
Definition bytes (s : string) : list byte :=
  map (fun b => if Byte.eqb b x27 then x22 else b) (list_byte_of_string s).

(** One line of a body: the text and a line feed. *)
Definition line (s : string) : list byte := bytes s ++ [LFbyte].

(** Lower case, for the letters of ASCII and the two other characters
    whose lower case has an ASCII letter in it (U+0130 and U+212A). *)
Definition lower (c : Z) : list Z :=
  if (65 <=? c) && (c <=? 90) then [c + 32]
  else if c =? 304 then [105; 775]
  else if c =? 8490 then [107]
  else [c].

(** The engine of the examples words its errors as V8 does and prints a
    number the way its literal is written. *)
Definition engine (reply : Request -> Z * Completion Response) : Host :=
  mkHost (fun literal => literal)
         (flat_map lower)
         (fun k => match k with
                   | ReadOfNullish JNull p =>
                       js "Cannot read properties of null (reading '" ++ p ++ js "')"
                   | ReadOfNullish _ p =>
                       js "Cannot read properties of undefined (reading '" ++ p ++ js "')"
                   | NotAFunction => js "parts.map is not a function"
                   | NoPrimitiveValue => js "Cannot convert object to primitive value"
                   end)
         (fun _ => js "Unexpected token in JSON")
         reply.

(** A server that answers every request after [dt] ticks with [r]. *)
Definition answering (dt : Z) (r : Response) : Host :=
  engine (fun _ => (dt, Normal r)).

(** No network: every request fails at once. *)
Definition offline : Host :=
  engine (fun _ => (0, Throw (ErrorObject (js "Failed to fetch")))).

Definition initial : State := mkState 0 [] [] false.

Definition call (streaming : bool) : Args :=
  mkArgs (js "Hi") (js "gemini-pro") None false None None (Some (js "k")) streaming.

(** The state a call leaves behind: the clock, the request it sent and
    the invocations of the callback. *)
Definition leaves (v : Revision) (t : Z) (streaming : bool) (evs : list StreamCall)
  : State :=
  mkState t [request v (call streaming)] evs false.

(** A body delivered in the given reads, one tick each. *)
Definition streamOf (chunks : list (list byte)) : Response :=
  mkResponse 200 (js "OK") (Some (mkBody (map (fun c => (1, c)) chunks) 1 None)).

Definition textFrame (s : string) : list byte :=
  bytes "data: {'candidates':[{'content':{'parts':[{'text':'"
    ++ bytes s ++ bytes "'}]}}]}" ++ [LFbyte].

(** A frame delivered whole, and the same bytes cut inside the frame. *)
Definition wholeFrame : Body :=
  mkBody [(1, line "data: {'candidates':[{'content':{'parts':[{'text':'Hi'}]}}]}")] 1 None.

Definition cutFrame : Body :=
  mkBody [(1, bytes "data: {'candidates':[{'content':");
          (1, line "{'parts':[{'text':'Hi'}]}}]}")] 1 None.

(** The scenario of the specification: [Hel], [lo], then the sentinel,
    one read each. *)
Definition hello : Response :=
  streamOf [textFrame "Hel"; textFrame "lo"; line "data: [DONE]"].

Definition helloByLine : Body :=
  mkBody [(1, textFrame "Hel"); (1, textFrame "lo"); (1, line "data: [DONE]")] 1 None.

(** The same bytes in a single read. *)
Definition helloAtOnce : Body :=
  mkBody [(3, List.concat (map snd (reads helloByLine)))] 1 None.

(** A text frame, then the sentinel twice, each in a read of its own. *)
Definition twoSentinels : Response :=
  streamOf [textFrame "Hi"; line "data: [DONE]"; line "data: [DONE]"].

(** The sentinel in one read, a text frame in the next. *)
Definition frameAfterSentinel : Response :=
  streamOf [line "data: [DONE]"; textFrame "late"].

(** A reply without candidates. *)
Definition noCandidates : Response :=
  mkResponse 200 (js "OK") (Some (mkBody [(3, bytes "{'candidates':[]}")] 1 None)).

(** The reply of the API to a request over quota. *)
Definition overQuota : Response :=
  mkResponse 429 (js "Too Many Requests")
    (Some (mkBody
       [(3, bytes "{'error':{'code':429,'message':'Resource has been exhausted (e.g. check quota).','status':'RESOURCE_EXHAUSTED'}}")]
       1 None)).

(** The reply of the API to a key it does not know. *)
Definition badKey : Response :=
  mkResponse 401 (js "Unauthorized")
    (Some (mkBody [(3, bytes "{'error':{'message':'Request had invalid authentication credentials.'}}")]
                  1 None)).

(** The non-streaming scenario of the specification. *)
Definition hiThere : Response :=
  mkResponse 200 (js "OK")
    (Some (mkBody
       [(3, bytes "{'candidates':[{'content':{'parts':[{'text':'Hi'},{'text':' there'}]}}]}")]
       1 None)).

End Sample.
Import Sample.

(* ================================================================== *)
(** * The connectivity probe ([services/apiTestService.ts]) *)
(* ================================================================== *)

Module ApiTestService.

(** [interface TestResult] *)
Record TestResult : Type := mkTestResult
  { success : bool;
    message : jsstring }.

(** [s.replace(/\/$/, '')]: the pattern matches a slash at the very end
    of the string, and at most one match is replaced. *)
Definition withoutTrailingSlash (s : jsstring) : jsstring :=
  match rev s with
  | c :: r => if c =? 47 then rev r else s
  | [] => s
  end.

Section WithHost.
Context {host : Host}.

(** The test of the [if]: the host of the Gemini API in the base URL, or
    a name, when one is given and not empty, that holds [gemini]. *)
Definition isGeminiChannel (baseUrl : jsstring) (name : option jsstring) : bool :=
  includes (String_toLowerCase baseUrl) (js "generativelanguage.googleapis.com")
  || match name with
     | Some (c :: n) => includes (String_toLowerCase (c :: n)) (js "gemini")
     | _ => false
     end.

(** The request of either branch: [fetch(url)] sends a GET without
    headers or body, [fetch(url, { headers })] a GET with the headers. *)
Definition probe (baseUrl apiKey : jsstring) (name : option jsstring) : Request :=
  if isGeminiChannel baseUrl name then
    mkRequest (withoutTrailingSlash baseUrl ++ js "/models?key=" ++ apiKey)
              (js "GET") [] JUndefined
  else
    mkRequest (withoutTrailingSlash baseUrl ++ js "/models")
              (js "GET") [(js "Authorization", js "Bearer " ++ apiKey)] JUndefined.

(** [export const testApiChannel = async (baseUrl, apiKey, name?) => { ... }] *)
Definition testApiChannel (baseUrl apiKey : jsstring) (name : option jsstring)
  : M TestResult :=
  tryCatch
    (response <- fetch (probe baseUrl apiKey name) ;;
     if negb (ok response) then
       ret (mkTestResult false
              (js "HTTP " ++ decimal (status response) ++ js ": "
                  ++ statusText response))
     else ret (mkTestResult true (js "连接成功")))
    (fun error =>
       ret (mkTestResult false
              match error with
              | ErrorObject m => m
              | OtherValue => js "未知错误"
              end)).

End WithHost.
End ApiTestService.

(* ================================================================== *)
(** * Reading the service: shapes of replies and of invocations *)
(* ================================================================== *)

Module Shapes.

(** Each invocation carries the text of the one before it, or [before]
    for the first, followed by its own fragment. *)
Fixpoint chained (before : jsstring) (evs : list StreamCall) : Prop :=
  match evs with
  | [] => True
  | c :: rest =>
      fullTextSoFar c = before ++ newChunk c /\ chained (fullTextSoFar c) rest
  end.

(** A part whose [text] member is the string [t], whatever else it
    holds. *)
Definition textPart (p : JSValue) (t : jsstring) : Prop :=
  exists members, p = JObject members /\ lookup (js "text") members = JString t.

(** A reply whose first candidate has parts with the texts [ts]: the
    other members of the reply, of the candidate and of its content,
    and the other candidates, are free. *)
Definition replyWithTexts (data : JSValue) (ts : list jsstring) : Prop :=
  exists members candidate others content parts,
    data = JObject members /\
    lookup (js "candidates") members = JArray (JObject candidate :: others) /\
    lookup (js "content") candidate = JObject content /\
    lookup (js "parts") content = JArray parts /\
    Forall2 textPart parts ts.

(** What the [catch] clause looks for before it looks for a failure of
    the network. *)
Definition marksBeforeNetwork (s : jsstring) : bool :=
  marksOfKeyOrRate s || includes s (js "404") || includes s (js "模型").

(** The state right after the response has arrived. *)
Definition arrived (v : Revision) (a : Args) (st : State) (dt : Z) : State :=
  mkState (now st + dt) (requests st ++ [request v a]) (calls st) (readerLocked st).

Definition endsWithSlash (s : jsstring) : bool :=
  match rev s with
  | c :: _ => c =? 47
  | [] => false
  end.

End Shapes.
Export Shapes.

(* ================================================================== *)
(** * Further inputs for the examples *)
(* ================================================================== *)

Module MoreSamples.

(** A reply of the API with the members it sends besides the text. *)
Definition fullReply : Response :=
  mkResponse 200 (js "OK")
    (Some (mkBody
       [(2, bytes "{'candidates':[{'content':{'parts':[{'text':'Hi'},{'text':' there'}],'role':'model'},");
        (1, bytes "'finishReason':'STOP','index':0},{'content':{'parts':[{'text':'second'}]}}],'modelVersion':'x'}")]
       1 None)).

(** The value of that reply. *)
Definition fullReplyValue : JSValue :=
  JObject
    [(js "candidates",
      JArray [JObject [(js "content",
                        JObject [(js "parts",
                                  JArray [JObject [(js "text", JString (js "Hi"))];
                                          JObject [(js "text", JString (js " there"))]]);
                                 (js "role", JString (js "model"))]);
                       (js "finishReason", JString (js "STOP"));
                       (js "index", JNumber (js "0"))];
              JObject [(js "content",
                        JObject [(js "parts",
                                  JArray [JObject [(js "text", JString (js "second"))]])])]]);
     (js "modelVersion", JString (js "x"))].

(** A reply whose only text is white space. *)
Definition blankReply : Response :=
  mkResponse 200 (js "OK")
    (Some (mkBody [(3, bytes "{'candidates':[{'content':{'parts':[{'text':'  '}]}}]}")]
                  1 None)).


(** A stream that breaks after its first frame. *)
Definition brokenStream : Response :=
  mkResponse 200 (js "OK")
    (Some (mkBody [(1, textFrame "Hel")] 2
                  (Some (ErrorObject (js "network error"))))).

(** A server that answers with status 503 and no body. *)
Definition unavailable : Response := mkResponse 503 (js "Service Unavailable") None.

End MoreSamples.
Import MoreSamples.

(* ================================================================== *)
(** * The platform functions on small inputs *)
(* ================================================================== *)

Module Checks.

Example decode_ascii : TextDecoder_decode (bytes "data: x") = js "data: x".
Proof. reflexivity. Qed.

(** U+4F60 is E4 BD A0; U+1F600 is F0 9F 98 80 and takes two units. *)
Example decode_three_bytes : TextDecoder_decode [xe4; xbd; xa0] = [20320].
Proof. reflexivity. Qed.

Example decode_four_bytes : TextDecoder_decode [xf0; x9f; x98; x80] = [55357; 56832].
Proof. reflexivity. Qed.

(** A character cut by the end of a read is replaced, and so is what is
    left of it at the head of the next read. *)
Example decode_cut_character :
  TextDecoder_decode [xe4; xbd] = [REPLACEMENT] /\
  TextDecoder_decode [xa0] = [REPLACEMENT].
Proof. split; reflexivity. Qed.

(** An overlong form and a lone surrogate are malformed. *)
Example decode_malformed :
  TextDecoder_decode [xc0; x80] = [REPLACEMENT; REPLACEMENT] /\
  TextDecoder_decode [xed; xa0; x80] = [REPLACEMENT; REPLACEMENT; REPLACEMENT].
Proof. split; reflexivity. Qed.

Example decode_drops_one_bom :
  TextDecoder_decode ([xef; xbb; xbf] ++ [xef; xbb; xbf] ++ bytes "a") = [BOM; 97].
Proof. reflexivity. Qed.

Example trim_both_ends : trim (js "  data: [DONE] ") = js "data: [DONE]".
Proof. reflexivity. Qed.

Example split_keeps_empty_lines :
  split LF [97; 10; 10; 98; 10] = [[97]; []; [98]; []].
Proof. reflexivity. Qed.

Example includes_inside : includes (js "HTTP 401 Unauthorized") (js "401") = true.
Proof. reflexivity. Qed.

Example parse_object :
  JSON_parse (json " {'a': [1, -2.5e+3, true, null, {}], 'b': 'xA\n'} ")
  = Some (JObject [(js "a", JArray [JNumber (js "1"); JNumber (js "-2.5e+3");
                                    JBool true; JNull; JObject []]);
                   (js "b", JString [120; 65; 10])]).
Proof. reflexivity. Qed.

Example parse_rejects :
  map JSON_parse [js "[DONE]"; js ""; js "01"; js "1."; js "[1,]"; json "{'a':1,}";
                  js "nul"; json "'\x'"; js "1 2"; js "-"; json "{'a' 1}"; json "'a"]
  = [None; None; None; None; None; None; None; None; None; None; None; None].
Proof. reflexivity. Qed.

Section WithHost.
Context {host : Host}.

(** The chain on values of other shapes than the API's. *)
Example chain_without_candidates : candidatesText (JObject []) = Normal [].
Proof. reflexivity. Qed.

Example chain_on_null :
  candidatesText JNull
  = Throw (ErrorObject (TypeError_message (ReadOfNullish JNull (js "candidates")))).
Proof. reflexivity. Qed.

Example chain_parts_not_an_array :
  candidatesText
    (JObject [(js "candidates",
               JArray [JObject [(js "content",
                                 JObject [(js "parts", JString (js "x"))])]])])
  = Throw (ErrorObject (TypeError_message NotAFunction)).
Proof. reflexivity. Qed.

(** A part without [text] and a [null] text print as nothing. *)
Example chain_skips_missing_text :
  candidatesText
    (JObject [(js "candidates",
               JArray [JObject [(js "content",
                                 JObject [(js "parts",
                                           JArray [JObject [(js "text", JString (js "a"))];
                                                   JObject [];
                                                   JObject [(js "text", JNull)];
                                                   JObject [(js "text", JString (js "b"))]])])]])])
  = Normal (js "ab").
Proof. reflexivity. Qed.

End WithHost.
End Checks.

(* ================================================================== *)
(** * The decode loop as a function of the frames *)
(* ================================================================== *)

Module DecodeLoopFacts.
Section WithHost.
Context {host : Host}.

Lemma addCalls_nil st : addCalls st [] = st.
Proof. destruct st; unfold addCalls; simpl. now rewrite app_nil_r. Qed.

Lemma addCalls_app st e1 e2 : addCalls (addCalls st e1) e2 = addCalls st (e1 ++ e2).
Proof. unfold addCalls; simpl. now rewrite app_assoc. Qed.

Lemma payload_eq fullText jsonStr st :
  payload fullText jsonStr st =
  match delta jsonStr with
  | [] => (Normal fullText, st)
  | _ :: _ => (Normal (fullText ++ delta jsonStr),
               addCalls st [mkStreamCall (delta jsonStr) (fullText ++ delta jsonStr) false])
  end.
Proof.
  unfold payload, delta, tryCatch, bind, eval, bindC.
  destruct (JSON_parse_throwing jsonStr) as [v|e]; [|reflexivity].
  destruct (candidatesText v) as [[|c t]|e]; reflexivity.
Qed.

Lemma for_lines_cons fullText l rest :
  for_lines fullText (l :: rest) =
  if negb (isData (trim l)) then for_lines fullText rest
  else if isSentinel (slice 6 (trim l))
       then call_onStreamChunk [] fullText true ;; ret fullText
       else fullText' <- payload fullText (slice 6 (trim l)) ;;
            for_lines fullText' rest.
Proof. reflexivity. Qed.

Lemma framesOfLines_cons l rest :
  framesOfLines (l :: rest) =
  if isData (trim l) then slice 6 (trim l) :: framesOfLines rest
  else framesOfLines rest.
Proof.
  unfold framesOfLines. cbn [map filter].
  now destruct (isData (trim l)).
Qed.

Lemma framesOfLines_app a b :
  framesOfLines (a ++ b) = framesOfLines a ++ framesOfLines b.
Proof. unfold framesOfLines. now rewrite map_app, filter_app, map_app. Qed.

Lemma scan_cons fullText f rest :
  scan fullText (f :: rest) =
  if isSentinel f then (fullText, [mkStreamCall [] fullText true])
  else match delta f with
       | [] => scan fullText rest
       | _ :: _ =>
           (fst (scan (fullText ++ delta f) rest),
            mkStreamCall (delta f) (fullText ++ delta f) false
              :: snd (scan (fullText ++ delta f) rest))
       end.
Proof.
  cbn [scan]. destruct (isSentinel f); [reflexivity|].
  destruct (delta f); [reflexivity|].
  now destruct (scan _ rest).
Qed.

Lemma scanReads_cons fullText fs rest :
  scanReads fullText (fs :: rest) =
  (fst (scanReads (fst (scan fullText fs)) rest),
   snd (scan fullText fs) ++ snd (scanReads (fst (scan fullText fs)) rest)).
Proof.
  cbn [scanReads]. destruct (scan fullText fs) as [ft1 e1]. cbn [fst snd].
  now destruct (scanReads ft1 rest).
Qed.

(** The [for] loop does to the state what [scan] computes. *)
Lemma for_lines_scan lines : forall fullText st,
  for_lines fullText lines st =
  (Normal (fst (scan fullText (framesOfLines lines))),
   addCalls st (snd (scan fullText (framesOfLines lines)))).
Proof.
  induction lines as [|l rest IH]; intros fullText st.
  - cbn. now rewrite addCalls_nil.
  - rewrite for_lines_cons, framesOfLines_cons.
    destruct (isData (trim l)) eqn:Hd; cbn [negb]; [|apply IH].
    rewrite scan_cons.
    destruct (isSentinel (slice 6 (trim l))) eqn:Hs; [reflexivity|].
    unfold bind at 1. rewrite payload_eq.
    destruct (delta (slice 6 (trim l))) as [|c t] eqn:Hdl; [apply IH|].
    rewrite IH. cbn [fst snd]. now rewrite addCalls_app.
Qed.

(** The [while] loop reads everything that is pending, whatever the
    frames say, and then meets the end of the body. *)
Lemma while_reading_scan b pending : forall fullText st,
  while_reading b fullText pending st =
  (match ending b with
   | Some e => Throw e
   | None => Normal (fst (scanReads fullText (map (fun rd => framesOf (snd rd)) pending)))
   end,
   later st (readsLatency pending + end_latency b)
         (snd (scanReads fullText (map (fun rd => framesOf (snd rd)) pending)))).
Proof.
  induction pending as [|[dt value] rest IH]; intros fullText st.
  - cbn. unfold bind, elapse, later. cbn. rewrite app_nil_r.
    destruct (ending b); reflexivity.
  - cbn [while_reading]. unfold bind at 1. unfold elapse at 1.
    unfold bind at 1. rewrite for_lines_scan. rewrite IH.
    rewrite map_cons, scanReads_cons. cbn [snd].
    change (framesOfLines (split LF (TextDecoder_decode value))) with (framesOf value).
    unfold later, addCalls. cbn [now requests calls readerLocked readsLatency fold_right fst].
    fold (readsLatency rest). rewrite app_assoc.
    replace (now st + dt + (readsLatency rest + end_latency b))
      with (now st + (dt + readsLatency rest + end_latency b)) by lia.
    reflexivity.
Qed.

(** The streaming branch reads the whole body under the reader's lock
    and releases it on the way out. *)
Lemma readStream_scan b st :
  readStream b st =
  (match ending b with
   | Some e => Throw e
   | None => Normal (fst (scanReads [] (map (fun rd => framesOf (snd rd)) (reads b))))
   end,
   mkState (now st + (readsLatency (reads b) + end_latency b))
           (requests st)
           (calls st ++ snd (scanReads [] (map (fun rd => framesOf (snd rd)) (reads b))))
           false).
Proof.
  unfold readStream, bind, setReaderLocked, tryFinally.
  rewrite while_reading_scan. unfold later. cbn [now requests calls readerLocked].
  destruct (ending b); reflexivity.
Qed.

(** ** Frames after a sentinel *)

Lemma sentinelLast_app_r fs gs : sentinelLast (fs ++ gs) -> sentinelLast gs.
Proof.
  induction fs as [|f fs IH]; cbn; [auto|]. intros [_ H]. auto.
Qed.

Lemma scan_app fs : forall gs fullText,
  sentinelLast (fs ++ gs) ->
  scan fullText (fs ++ gs) =
  (fst (scan (fst (scan fullText fs)) gs),
   snd (scan fullText fs) ++ snd (scan (fst (scan fullText fs)) gs)).
Proof.
  induction fs as [|f fs IH]; intros gs fullText H.
  - cbn. now destruct (scan fullText gs).
  - cbn [app] in *. destruct H as [Hf H]. rewrite !scan_cons.
    destruct (isSentinel f) eqn:Hs.
    + specialize (Hf eq_refl). apply app_eq_nil in Hf as [_ ->]. reflexivity.
    + destruct (delta f) as [|c t]; [now apply IH|].
      rewrite (IH _ _ H). reflexivity.
Qed.

(** With no frame after a sentinel, the reads may be scanned as one. *)
Lemma scanReads_concat reads : forall fullText,
  sentinelLast (List.concat reads) ->
  scanReads fullText reads = scan fullText (List.concat reads).
Proof.
  induction reads as [|fs rest IH]; intros fullText H; [reflexivity|].
  rewrite scanReads_cons. cbn [List.concat] in *.
  rewrite (scan_app _ _ _ H).
  now rewrite (IH _ (sentinelLast_app_r _ _ H)).
Qed.

(** Within one read, what follows a sentinel is not looked at. *)
Lemma scan_stops_at_sentinel fs : forall gs fullText,
  scan fullText (fs ++ js "[DONE]" :: gs) = scan fullText (fs ++ [js "[DONE]"]).
Proof.
  induction fs as [|f fs IH]; intros gs fullText.
  - reflexivity.
  - cbn [app]. rewrite !scan_cons. destruct (isSentinel f); [reflexivity|].
    destruct (delta f); now rewrite IH.
Qed.

(** ** Frames that contribute nothing *)

Lemma delta_malformed jsonStr : JSON_parse jsonStr = None -> delta jsonStr = [].
Proof. intros H. unfold delta, JSON_parse_throwing. now rewrite H. Qed.

Lemma scan_skip fs : forall f gs fullText,
  isSentinel f = false -> delta f = [] ->
  scan fullText (fs ++ f :: gs) = scan fullText (fs ++ gs).
Proof.
  induction fs as [|g fs IH]; intros f gs fullText Hs Hd.
  - cbn [app]. now rewrite scan_cons, Hs, Hd.
  - cbn [app]. rewrite !scan_cons. destruct (isSentinel g); [reflexivity|].
    destruct (delta g); rewrite (IH _ _ _ Hs Hd); reflexivity.
Qed.

(** A read may be replaced by one that scans alike. *)
Lemma scanReads_replace before : forall fs fs' after fullText,
  (forall t, scan t fs = scan t fs') ->
  scanReads fullText (before ++ fs :: after) = scanReads fullText (before ++ fs' :: after).
Proof.
  induction before as [|gs before IH]; intros fs fs' after fullText H.
  - cbn [app]. now rewrite !scanReads_cons, H.
  - cbn [app]. rewrite !scanReads_cons. now rewrite (IH _ _ _ _ H).
Qed.

(** ** The shape of the invocations *)

(** The invocations of one read: text-bearing ones, each with a
    fragment that is not empty, then at most one terminal invocation,
    which carries the empty fragment and the text accumulated so far. *)
Lemma scan_shape fs : forall fullText,
  exists texts,
    Forall (fun c => isComplete c = false /\ newChunk c <> []) texts /\
    (snd (scan fullText fs) = texts \/
     snd (scan fullText fs)
     = texts ++ [mkStreamCall [] (fst (scan fullText fs)) true]).
Proof.
  induction fs as [|f fs IH]; intros fullText.
  - exists []. split; [constructor|]. now left.
  - rewrite scan_cons. destruct (isSentinel f).
    + exists []. split; [constructor|]. now right.
    + destruct (delta f) as [|c t] eqn:Hd; [apply IH|].
      destruct (IH (fullText ++ c :: t)) as (texts & Htexts & Hshape).
      exists (mkStreamCall (c :: t) (fullText ++ c :: t) false :: texts).
      split.
      * constructor; [|assumption]. cbn. split; [reflexivity|discriminate].
      * cbn [fst snd]. destruct Hshape as [-> | ->]; [now left | now right].
Qed.

Lemma terminated_sentinelLast fs : terminatedBySentinel fs = true -> sentinelLast fs.
Proof.
  induction fs as [|f fs IH]; [discriminate|]. cbn [terminatedBySentinel sentinelLast].
  destruct fs as [|g fs]; [cbn; auto|].
  intros H. apply andb_true_iff in H as [Hf Hr]. split; [|auto].
  intros Hs. rewrite Hs in Hf. discriminate Hf.
Qed.

(** The invocations of frames that end with their only sentinel: the
    text-bearing ones, then the terminal one. *)
Lemma scan_terminated fs : forall fullText,
  terminatedBySentinel fs = true ->
  exists texts,
    Forall (fun c => isComplete c = false /\ newChunk c <> []) texts /\
    snd (scan fullText fs)
    = texts ++ [mkStreamCall [] (fst (scan fullText fs)) true].
Proof.
  induction fs as [|f fs IH]; intros fullText H; [discriminate|].
  cbn [terminatedBySentinel] in H. rewrite scan_cons. destruct fs as [|g fs].
  - rewrite H. exists []. split; [constructor|reflexivity].
  - apply andb_true_iff in H as [Hf Hr]. apply negb_true_iff in Hf. rewrite Hf.
    destruct (delta f) as [|c t] eqn:Hd; [now apply IH|].
    destruct (IH (fullText ++ c :: t) Hr) as (texts & Htexts & Hshape).
    exists (mkStreamCall (c :: t) (fullText ++ c :: t) false :: texts). split.
    + constructor; [|assumption]. cbn. split; [reflexivity|discriminate].
    + cbn [fst snd]. now rewrite Hshape.
Qed.

End WithHost.
End DecodeLoopFacts.
Import DecodeLoopFacts.

(* ================================================================== *)
(** * Reads that end at a line feed *)
(* ================================================================== *)

Module FramingFacts.

Lemma utf8_lead_asksHigh b : asksHigh (snd (utf8_lead b)).
Proof.
  unfold utf8_lead, asksHigh.
  repeat match goal with
         | |- context [if ?c then _ else _] => destruct c
         end; cbn; lia.
Qed.

Lemma utf8_step_asksHigh st b : asksHigh (snd (utf8_step st b)).
Proof.
  unfold utf8_step. destruct (u_needed st) as [|n]; [apply utf8_lead_asksHigh|].
  destruct (_ && _).
  - destruct n; cbn; unfold asksHigh; cbn; lia.
  - pose proof (utf8_lead_asksHigh b). now destruct (utf8_lead b).
Qed.

(** A line feed closes whatever sequence is open and leaves the decoder
    in its initial state. *)
Lemma utf8_run_LF bs : forall st rest,
  asksHigh st ->
  utf8_run st (bs ++ LF :: rest) = utf8_run st bs ++ LF :: utf8_run utf8_initial rest.
Proof.
  induction bs as [|b bs IH]; intros st rest Hst.
  - cbn [app utf8_run]. unfold utf8_step, utf8_flush.
    destruct (u_needed st) as [|n]; [reflexivity|].
    unfold asksHigh in Hst.
    replace ((u_lower st <=? LF) && (LF <=? u_upper st)) with false; [reflexivity|].
    symmetry. apply andb_false_iff. left. apply Z.leb_gt. unfold LF. lia.
  - cbn [app utf8_run]. pose proof (utf8_step_asksHigh st b) as H.
    destruct (utf8_step st b) as [out st']. cbn [snd] in H.
    rewrite (IH _ _ H). now rewrite app_assoc.
Qed.

Lemma utf8_decode_LF x y :
  utf8_decode (x ++ LFbyte :: y) = utf8_decode x ++ LF :: utf8_decode y.
Proof.
  unfold utf8_decode. rewrite map_app. cbn [map].
  change (Z.of_N (Byte.to_N LFbyte)) with LF.
  apply utf8_run_LF. unfold asksHigh. cbn. lia.
Qed.

Lemma utf16_encode_app a b : utf16_encode (a ++ b) = utf16_encode a ++ utf16_encode b.
Proof. apply flat_map_app. Qed.

Lemma split_nonempty sep s : split sep s <> [].
Proof.
  destruct s as [|c s]; cbn; [discriminate|].
  destruct (c =? sep); [discriminate|]. now destruct (split sep s).
Qed.

Lemma split_app sep a : forall b,
  split sep (a ++ sep :: b) = split sep a ++ split sep b.
Proof.
  induction a as [|c a IH]; intros b.
  - cbn. now rewrite Z.eqb_refl.
  - cbn [app split]. rewrite IH. destruct (c =? sep); [reflexivity|].
    pose proof (split_nonempty sep a). now destruct (split sep a).
Qed.

Lemma framesOfText_LF a b :
  framesOfText (a ++ LF :: b) = framesOfText a ++ framesOfText b.
Proof. unfold framesOfText. now rewrite split_app, framesOfLines_app. Qed.

(** [trim] removes a byte-order mark like any other white space, so the
    mark the decoder drops at the head of a read changes no frame. *)
Lemma framesOfText_bom cps :
  framesOfText (utf16_encode (strip_bom cps)) = framesOfText (utf16_encode cps).
Proof.
  destruct cps as [|c cps]; [reflexivity|]. cbn [strip_bom].
  destruct (c =? BOM) eqn:Hc; [|reflexivity].
  apply Z.eqb_eq in Hc. subst c.
  change (utf16_encode (BOM :: cps)) with (BOM :: utf16_encode cps).
  unfold framesOfText. cbn [split].
  change (BOM =? LF) with false. cbv iota.
  pose proof (split_nonempty LF (utf16_encode cps)).
  destruct (split LF (utf16_encode cps)) as [|l ls]; [contradiction|].
  rewrite !framesOfLines_cons.
  now change (trim (BOM :: l)) with (trim l).
Qed.

Lemma framesOf_text value :
  framesOf value = framesOfText (utf16_encode (utf8_decode value)).
Proof. unfold framesOf, TextDecoder_decode. apply framesOfText_bom. Qed.

(** Cutting a body after a line feed cuts its frames in two. *)
Lemma framesOf_LF x y : framesOf (x ++ LFbyte :: y) = framesOf x ++ framesOf y.
Proof.
  rewrite !framesOf_text, utf8_decode_LF, utf16_encode_app.
  change (utf16_encode (LF :: utf8_decode y)) with (LF :: utf16_encode (utf8_decode y)).
  apply framesOfText_LF.
Qed.

Lemma endsWithLF_inv v : endsWithLF v = true -> exists x, v = x ++ [LFbyte].
Proof.
  unfold endsWithLF. destruct (rev v) as [|b r] eqn:Hr; [discriminate|].
  intros Hb. apply Byte.byte_dec_bl in Hb. subst b.
  exists (rev r). rewrite <- (rev_involutive v), Hr. reflexivity.
Qed.

(** The frames of a body are those of its reads, one after the other,
    when the reads end at line feeds. *)
Lemma framesOf_concat values :
  lineAligned values = true ->
  framesOf (List.concat values) = List.concat (map framesOf values).
Proof.
  induction values as [|v rest IH]; intros H; [reflexivity|].
  cbn [lineAligned] in H. destruct rest as [|v' rest'].
  - cbn. now rewrite !app_nil_r.
  - apply andb_true_iff in H as [Hv Hr].
    apply endsWithLF_inv in Hv as [x ->].
    cbn [List.concat map] in *. rewrite <- app_assoc. cbn [app].
    rewrite framesOf_LF, (IH Hr).
    replace (framesOf (x ++ [LFbyte])) with (framesOf x ++ framesOf []) by
      (now rewrite <- framesOf_LF).
    change (framesOf []) with (@nil jsstring). now rewrite app_nil_r.
Qed.

Lemma map_framesOf_reads (rs : list (Z * list byte)) :
  map (fun rd => framesOf (snd rd)) rs = map framesOf (map snd rs).
Proof. now rewrite map_map. Qed.

End FramingFacts.
Import FramingFacts.

(* ================================================================== *)
(** * The call as a whole *)
(* ================================================================== *)

Module ResultFacts.

Lemma bind_Normal_inv A B (m : M A) (k : A -> M B) st b st' :
  bind m k st = (Normal b, st') ->
  exists a st1, m st = (Normal a, st1) /\ k a st1 = (Normal b, st').
Proof.
  unfold bind. destruct (m st) as [[a|e] st1]; intros H; [eauto|discriminate].
Qed.

Lemma trimStart_white k : forallb isWhiteSpace k = true -> trimStart k = [].
Proof.
  induction k as [|c k IH]; [reflexivity|]. cbn [forallb trimStart].
  intros H. apply andb_true_iff in H as [Hc Hk]. rewrite Hc. auto.
Qed.

Lemma trim_white k : forallb isWhiteSpace k = true -> trim k = [].
Proof. intros H. unfold trim. now rewrite (trimStart_white _ H). Qed.

Lemma total_latency_reads b : total_latency b = readsLatency (reads b) + end_latency b.
Proof.
  unfold total_latency, readsLatency.
  induction (reads b) as [|rd rs IH]; cbn; lia.
Qed.

Lemma recover_tagged v a d e : error (recover v a d e) <> None.
Proof.
  unfold recover. destruct e as [message|]; [|discriminate].
  repeat match goal with
         | |- context [if ?c then _ else _] => destruct c
         end; discriminate.
Qed.

Lemma recover_text v a d e : text (recover v a d e) <> [].
Proof.
  unfold recover. destruct e as [message|].
  - repeat match goal with
           | |- context [if ?c then _ else _] => destruct c
           end; destruct v; intros H; vm_compute in H; discriminate H.
  - destruct v; intros H; vm_compute in H; discriminate H.
Qed.

Lemma recover_duration v a d e : durationMs (recover v a d e) = d.
Proof.
  unfold recover. destruct e as [message|]; [|reflexivity].
  repeat match goal with
         | |- context [if ?c then _ else _] => destruct c
         end; reflexivity.
Qed.

Section WithHost.
Context {host : Host}.

(** The call as a whole: the [try] block's result, or what the [catch]
    clause makes of what it threw, with the time that passed until
    then. *)
Lemma generateResponse_eq v a st :
  generateResponse v a st =
  match attempt v a (now st) st with
  | (Normal r, st') => (Normal r, st')
  | (Throw e, st') => (Normal (recover v a (now st' - now st) e), st')
  end.
Proof.
  unfold generateResponse, bind, performance_now, tryCatch.
  destruct (attempt v a (now st) st) as [[r|e] st']; reflexivity.
Qed.

Lemma errorData_eq response st :
  tryCatch (Response_json response) (fun _ => ret (JObject [])) st
  = (Normal (errorDataOf response), later st (total_latency (bodyOf response)) []).
Proof.
  unfold tryCatch, Response_json, bind, elapse, eval, errorDataOf, later, ret.
  cbn [now requests calls readerLocked]. rewrite app_nil_r.
  destruct (bodyJson (bodyOf response)); reflexivity.
Qed.

(** Every path through the handling of a bad status throws. *)
Lemma rejectStatus_throws a response st :
  exists e, rejectStatus a response st
            = (Throw e, later st (total_latency (bodyOf response)) []).
Proof.
  unfold rejectStatus. unfold bind at 1. rewrite errorData_eq.
  unfold bind at 1. unfold eval at 1.
  destruct (errorMessageOf (errorDataOf response) response) as [em|e]; [|eauto].
  unfold bind, eval, throw.
  destruct (status response =? 401); [destruct (ToString em); eauto|].
  destruct (status response =? 429); [destruct (ToString em); eauto|].
  destruct (status response =? 404); [eauto|].
  destruct (ToString em); eauto.
Qed.

(** A result the [try] block returns carries no error tag; its duration
    is the time the response took to arrive, and the call goes on for
    as long as the body takes to read. *)
Lemma attempt_returns v a t st r st' :
  attempt v a t st = (Normal r, st') ->
  exists response,
    snd (fetch_reply (request v a)) = Normal response /\
    error r = None /\
    trim (text r) <> [] /\
    durationMs r = now st + fst (fetch_reply (request v a)) - t /\
    now st' = now st + fst (fetch_reply (request v a)) + total_latency (bodyOf response).
Proof.
  unfold attempt. intros H.
  apply bind_Normal_inv in H as (u1 & s1 & H1 & H).
  assert (Hs1 : s1 = st).
  { destruct (apiKeyMissing (apiKey a)); [discriminate H1|]. now inversion H1. }
  subst s1. clear H1.
  apply bind_Normal_inv in H as (response & s2 & H2 & H).
  unfold fetch in H2. destruct (fetch_reply (request v a)) as [dt outcome].
  inversion H2; subst outcome s2. clear H2.
  apply bind_Normal_inv in H as (u3 & s3 & H3 & H).
  destruct (negb (ok response)).
  { destruct (rejectStatus_throws a response
                (mkState (now st + dt) (requests st ++ [request v a])
                         (calls st) (readerLocked st))) as [e He].
    rewrite He in H3. discriminate H3. }
  inversion H3; subst s3. clear H3.
  apply bind_Normal_inv in H as (t' & s4 & H4 & H).
  inversion H4; subst t' s4. clear H4. cbn [now] in H.
  apply bind_Normal_inv in H as (fullText & s5 & H5 & H).
  assert (Hnow : now s5 = now st + dt + total_latency (bodyOf response)).
  { destruct (onStreamChunk a), (body response) as [b|] eqn:Hb.
    - rewrite readStream_scan in H5. inversion H5; subst s5. cbn [now].
      unfold bodyOf. rewrite Hb, total_latency_reads. lia.
    - apply bind_Normal_inv in H5 as (data & s & Hj & H5).
      unfold Response_json, bind, elapse, eval in Hj.
      inversion Hj; subst s. inversion H5; subst s5. reflexivity.
    - apply bind_Normal_inv in H5 as (data & s & Hj & H5).
      unfold Response_json, bind, elapse, eval in Hj.
      inversion Hj; subst s. inversion H5; subst s5. reflexivity.
    - apply bind_Normal_inv in H5 as (data & s & Hj & H5).
      unfold Response_json, bind, elapse, eval in Hj.
      inversion Hj; subst s. inversion H5; subst s5. reflexivity. }
  exists response. cbn [fst snd].
  destruct (trim fullText) eqn:Ht; [discriminate H|].
  inversion H; subst. cbn [error durationMs text]. rewrite Ht.
  repeat split; [discriminate | assumption].
Qed.

End WithHost.
End ResultFacts.
Import ResultFacts.

(* ================================================================== *)
(** * How the [catch] clause reads the errors of the [try] block *)
(* ================================================================== *)

Module Classification.

(** The error thrown for status 401 is read as an invalid key, whatever
    the server wrote. *)
Lemma unauthorized_reads_as_invalid_key v a d m :
  recover v a d (ErrorObject (js "API密钥无效或已过期: " ++ m))
  = mkGeminiResponse
      (worded v "API密钥无效或已过期。请检查您的 Gemini API 密钥配置。"
                "API密钥无效或已过期。请检查您的Gemini API密钥配置。")
      d (Some (js "API key not valid")).
Proof. destruct v; vm_compute; reflexivity. Qed.

(** The error thrown for a missing key is read the same way. *)
Lemma missing_key_reads_as_invalid_key v a d :
  recover v a d (ErrorObject (worded v "API密钥未设置。请配置您的 Gemini API 密钥。"
                                       "API密钥未设置。请配置您的Gemini API密钥。"))
  = mkGeminiResponse
      (worded v "API密钥无效或已过期。请检查您的 Gemini API 密钥配置。"
                "API密钥无效或已过期。请检查您的Gemini API密钥配置。")
      d (Some (js "API key not valid")).
Proof. destruct v; vm_compute; reflexivity. Qed.

(** The message thrown for an empty response contains the word the
    [catch] clause takes for the sign of a missing model. *)
Lemma empty_response_reads_as_missing_model v a d :
  recover v a d (ErrorObject (worded v "AI 响应为空，请检查模型配置或重试。"
                                       "AI响应为空，请检查模型配置或重试"))
  = mkGeminiResponse
      (js "模型 " ++ modelName a
          ++ worded v " 不存在或无权访问。请检查模型名称或 API 权限。"
                      " 不存在或无权访问。请检查模型名称或API权限。")
      d (Some (js "Model not found")).
Proof. destruct v; vm_compute; reflexivity. Qed.


(** The error thrown for status 429 is read as a rate limit only if the
    server's own words hold [429] or [Rate limit]. *)
Lemma too_many_requests_needs_a_mark v a d m :
  marksOfKeyOrRate m = false ->
  error (recover v a d (ErrorObject (js "API调用频率超限: " ++ m)))
  <> Some (js "Rate limit exceeded").
Proof.
  unfold marksOfKeyOrRate. intros H.
  repeat (apply orb_false_iff in H; destruct H as [H ?]).
  unfold recover.
  replace (includes (js "API调用频率超限: " ++ m) (js "API密钥"))
    with (includes m (js "API密钥")) by (vm_compute; reflexivity).
  replace (includes (js "API调用频率超限: " ++ m) (js "401"))
    with (includes m (js "401")) by (vm_compute; reflexivity).
  replace (includes (js "API调用频率超限: " ++ m) (js "Unauthorized"))
    with (includes m (js "Unauthorized")) by (vm_compute; reflexivity).
  replace (includes (js "API调用频率超限: " ++ m) (js "429"))
    with (includes m (js "429")) by (vm_compute; reflexivity).
  replace (includes (js "API调用频率超限: " ++ m) (js "Rate limit"))
    with (includes m (js "Rate limit")) by (vm_compute; reflexivity).
  repeat match goal with
         | E : includes _ _ = false |- _ => rewrite E; clear E
         end.
  cbn [orb].
  repeat match goal with
         | |- context [if ?c then _ else _] => destruct c
         end; cbn [error]; intros E; vm_compute in E; discriminate E.
Qed.

End Classification.
Import Classification.

(* ================================================================== *)
(** * Bad statuses, end to end *)
(* ================================================================== *)

Module HttpErrors.
Section WithHost.
Context {host : Host}.

Lemma rejectStatus_401 a response st em m :
  status response = 401 ->
  errorMessageOf (errorDataOf response) response = Normal em ->
  ToString em = Normal m ->
  rejectStatus a response st
  = (Throw (ErrorObject (js "API密钥无效或已过期: " ++ m)),
     later st (total_latency (bodyOf response)) []).
Proof.
  intros Hs Hem Hm. unfold rejectStatus. unfold bind at 1. rewrite errorData_eq.
  unfold bind at 1. unfold eval at 1. rewrite Hem, Hs. cbn [Z.eqb Pos.eqb].
  unfold bind, eval, throw. now rewrite Hm.
Qed.


(** A request that fails makes the [try] block throw what [fetch]
    threw. *)
Lemma network_failure_throws v a st dt e :
  apiKeyMissing (apiKey a) = false ->
  fetch_reply (request v a) = (dt, Throw e) ->
  attempt v a (now st) st
  = (Throw e,
     mkState (now st + dt) (requests st ++ [request v a]) (calls st) (readerLocked st)).
Proof.
  intros Hkey Hreply. unfold attempt. rewrite Hkey.
  unfold bind at 1. unfold ret at 1. unfold bind at 1. unfold fetch at 1.
  now rewrite Hreply.
Qed.

(** The [try] block up to a bad status. *)
Lemma attempt_rejected v a st dt response e st' :
  apiKeyMissing (apiKey a) = false ->
  fetch_reply (request v a) = (dt, Normal response) ->
  ok response = false ->
  rejectStatus a response
    (mkState (now st + dt) (requests st ++ [request v a]) (calls st) (readerLocked st))
  = (Throw e, st') ->
  attempt v a (now st) st = (Throw e, st').
Proof.
  intros Hkey Hreply Hok Hrej. unfold attempt. rewrite Hkey.
  unfold bind at 1. unfold ret at 1. unfold bind at 1. unfold fetch at 1.
  rewrite Hreply. unfold bind at 1. rewrite Hok. cbn [negb]. now rewrite Hrej.
Qed.

(** A status outside 200..299 makes the [try] block throw. *)
Lemma bad_status_throws v a st dt response :
  apiKeyMissing (apiKey a) = false ->
  fetch_reply (request v a) = (dt, Normal response) ->
  ok response = false ->
  exists e st', attempt v a (now st) st = (Throw e, st').
Proof.
  intros Hkey Hreply Hok.
  destruct (rejectStatus_throws a response
              (mkState (now st + dt) (requests st ++ [request v a])
                       (calls st) (readerLocked st))) as [e He].
  exists e. eexists. apply attempt_rejected with (dt := dt) (response := response);
    [assumption | assumption | assumption | exact He].
Qed.

(** X22.  Status 401 yields the invalid-key result, whatever the server wrote,
    as long as its message can be read and printed. *)
Lemma status_401_is_invalid_key v a st dt response em m :
  apiKeyMissing (apiKey a) = false ->
  fetch_reply (request v a) = (dt, Normal response) ->
  status response = 401 ->
  errorMessageOf (errorDataOf response) response = Normal em ->
  ToString em = Normal m ->
  fst (generateResponse v a st)
  = Normal (mkGeminiResponse
              (worded v "API密钥无效或已过期。请检查您的 Gemini API 密钥配置。"
                        "API密钥无效或已过期。请检查您的Gemini API密钥配置。")
              (dt + total_latency (bodyOf response))
              (Some (js "API key not valid"))).
Proof.
  intros Hkey Hreply Hs Hem Hm. rewrite generateResponse_eq.
  rewrite (attempt_rejected v a st Hkey Hreply
             (e := ErrorObject (js "API密钥无效或已过期: " ++ m))
             (st' := later (mkState (now st + dt) (requests st ++ [request v a])
                                    (calls st) (readerLocked st))
                           (total_latency (bodyOf response)) [])).
  - cbn [fst later now]. rewrite unauthorized_reads_as_invalid_key.
    do 2 f_equal. lia.
  - unfold ok. now rewrite Hs.
  - now apply rejectStatus_401 with (em := em).
Qed.


(** A model whose name holds [401] and which the server does not know
    is reported as an invalid key. *)
Lemma status_404_with_401_in_the_name :
  fst (generateResponse
         (host := answering 5 (mkResponse 404 (js "Not Found") None)) Revised
         (mkArgs (js "Hi") (js "gemini-exp-0401") None false None None
                 (Some (js "k")) false)
         initial)
  = Normal (mkGeminiResponse
              (js "API密钥无效或已过期。请检查您的 Gemini API 密钥配置。")
              5 (Some (js "API key not valid"))).
Proof. vm_compute. reflexivity. Qed.

(** A body that is the JSON value [null] makes the read of its [error]
    member throw, and the status is not looked at. *)
Lemma status_401_with_null_body :
  fst (generateResponse
         (host := answering 5 (mkResponse 401 (js "Unauthorized")
                                 (Some (mkBody [(3, bytes "null")] 1 None))))
         Revised (call false) initial)
  = Normal (mkGeminiResponse
              (js "与 Gemini 通信时出错: Cannot read properties of null (reading 'error')")
              9 (Some (js "Cannot read properties of null (reading 'error')"))).
Proof. vm_compute. reflexivity. Qed.

End WithHost.
End HttpErrors.

(* ================================================================== *)
(** * The scenarios of the specification, and further facts *)
(* ================================================================== *)

Module Scenarios.

(** The non-streaming scenario: the texts of the parts, in order. *)
Example non_streaming_hi_there :
  generateResponse (host := answering 5 hiThere) Revised (call false) initial
  = (Normal (mkGeminiResponse (js "Hi there") 5 None), leaves Revised 9 false []).
Proof. vm_compute. reflexivity. Qed.

(** The scenario of status 401. *)
Example unauthorized_scenario :
  generateResponse (host := answering 5 badKey) Revised (call false) initial
  = (Normal (mkGeminiResponse
               (js "API密钥无效或已过期。请检查您的 Gemini API 密钥配置。")
               9 (Some (js "API key not valid"))),
     leaves Revised 9 false []).
Proof. vm_compute. reflexivity. Qed.

(** Reads that end at line feeds still disagree when a frame follows
    the sentinel: in one read the frame is left unread, in a read of
    its own it is processed. *)
Example aligned_reads_disagree_after_sentinel :
  fst (readStream (host := offline)
         (mkBody [(1, line "data: [DONE]" ++ textFrame "late")] 1 None) initial)
  = Normal [] /\
  fst (readStream (host := offline)
         (mkBody [(1, line "data: [DONE]"); (1, textFrame "late")] 1 None) initial)
  = Normal (js "late").
Proof. vm_compute. split; reflexivity. Qed.

Section WithHost.
Context {host : Host}.

(** The reader is released on every way out of the streaming branch. *)
Lemma readStream_releases b st : readerLocked (snd (readStream b st)) = false.
Proof. now rewrite readStream_scan. Qed.

(** When no frame follows a sentinel, the streaming branch makes the
    text-bearing invocations and then at most one terminal invocation,
    with the empty fragment and the whole accumulated text. *)
Lemma terminal_call_once_when_sentinel_last b st :
  sentinelLast (List.concat (map framesOf (map snd (reads b)))) ->
  exists texts,
    Forall (fun c => isComplete c = false /\ newChunk c <> []) texts /\
    (calls (snd (readStream b st)) = calls st ++ texts \/
     calls (snd (readStream b st))
     = calls st ++ texts
         ++ [mkStreamCall []
               (fst (scanReads [] (map (fun rd => framesOf (snd rd)) (reads b)))) true]).
Proof.
  intros H. rewrite readStream_scan. cbn [snd calls].
  rewrite map_framesOf_reads, (scanReads_concat _ _ H).
  destruct (scan_shape (List.concat (map framesOf (map snd (reads b)))) [])
    as (texts & Htexts & [E | E]); exists texts; (split; [assumption|]);
    rewrite E; auto.
Qed.

(** X24.  When, besides, the reads end at line feeds and the frames of the
    body end with their only sentinel, the terminal invocation is made
    exactly once, after every text-bearing one. *)
Lemma terminal_call_exactly_once b st :
  lineAligned (map snd (reads b)) = true ->
  terminatedBySentinel (framesOf (List.concat (map snd (reads b)))) = true ->
  exists texts,
    Forall (fun c => isComplete c = false /\ newChunk c <> []) texts /\
    calls (snd (readStream b st))
    = calls st ++ texts
        ++ [mkStreamCall []
              (fst (scanReads [] (map (fun rd => framesOf (snd rd)) (reads b)))) true].
Proof.
  intros Ha Ht. rewrite readStream_scan. cbn [snd calls].
  rewrite map_framesOf_reads, scanReads_concat, <- framesOf_concat by
    (try rewrite <- framesOf_concat by assumption;
     try apply terminated_sentinelLast; assumption).
  destruct (scan_terminated _ [] Ht) as (texts & Htexts & E).
  exists texts. split; [assumption|]. now rewrite E.
Qed.

(** X25.  A model named after Gemini is served by the Gemini service, which
    turns every error into a result, whatever the other service does. *)
Lemma router_to_gemini_returns openai v a st :
  AiService.routesToGemini a = true ->
  exists r st', AiService.generateResponse openai v a st = (Normal r, st').
Proof.
  intros H. unfold AiService.generateResponse. rewrite H.
  rewrite generateResponse_eq.
  destruct (attempt v a (now st) st) as [[r|e] st']; eauto.
Qed.

End WithHost.
End Scenarios.

(* ================================================================== *)
(** * The claims of the specification *)
(* ================================================================== *)

(** ** The decode loop *)

Section DecodeLoopClaims.
Context {host : Host}.

(** C1, amended.  When every read but the last ends with a line feed
    and no frame follows a [[DONE]] frame, the accumulated text, the
    invocations of [onStreamChunk] and the fragments handed to it
    depend on the bytes of the body only, not on where the transport
    cuts them. *)
Theorem C1_line_aligned_reads_agree (b1 b2 : Body) (st1 st2 : State) :
  List.concat (map snd (reads b1)) = List.concat (map snd (reads b2)) ->
  lineAligned (map snd (reads b1)) = true ->
  lineAligned (map snd (reads b2)) = true ->
  sentinelLast (framesOf (List.concat (map snd (reads b1)))) ->
  ending b1 = ending b2 ->
  calls st1 = calls st2 ->
  fst (readStream b1 st1) = fst (readStream b2 st2) /\
  calls (snd (readStream b1 st1)) = calls (snd (readStream b2 st2)) /\
  fragments (snd (readStream b1 st1)) = fragments (snd (readStream b2 st2)).
Proof.
  intros Hbytes H1 H2 Hlast Hend Hcalls.
  assert (Hscan : scanReads [] (map (fun rd => framesOf (snd rd)) (reads b1)) =
                  scanReads [] (map (fun rd => framesOf (snd rd)) (reads b2))).
  { rewrite !map_framesOf_reads.
    rewrite !scanReads_concat.
    - now rewrite <- !framesOf_concat, Hbytes.
    - rewrite <- framesOf_concat by assumption. now rewrite <- Hbytes.
    - now rewrite <- framesOf_concat. }
  rewrite !readStream_scan. cbn [fst snd calls]. unfold fragments. cbn [calls].
  rewrite Hscan, Hend, Hcalls. auto.
Qed.

(** C6.  A data line whose payload [JSON.parse] rejects (and which is
    not the [[DONE]] sentinel) is skipped: its [try] block completes
    normally and leaves the accumulated text and the state as they
    were; the loop over the lines of the read does exactly what it does
    without that line, so the lines after it are processed as if it had
    not been there; and the loop over the reads does exactly what it
    does on a body whose read lacks that line, so nothing of the
    stream is given up. *)
Theorem C6_malformed_frame_is_skipped
        (fullText : jsstring) (before after : list jsstring) (bad : jsstring)
        (st : State) :
  isData (trim bad) = true ->
  isSentinel (slice 6 (trim bad)) = false ->
  JSON_parse (slice 6 (trim bad)) = None ->
  payload fullText (slice 6 (trim bad)) st = (Normal fullText, st) /\
  for_lines fullText (before ++ bad :: after) st
  = for_lines fullText (before ++ after) st /\
  forall (b : Body) (earlier later : list (Z * list byte)) (dt : Z)
         (value value' : list byte),
    split LF (TextDecoder_decode value) = before ++ bad :: after ->
    split LF (TextDecoder_decode value') = before ++ after ->
    while_reading b fullText (earlier ++ (dt, value) :: later) st
    = while_reading b fullText (earlier ++ (dt, value') :: later) st.
Proof.
  intros Hdata Hsent Hparse. pose proof (delta_malformed _ Hparse) as Hd.
  assert (Hscan : forall t, scan t (framesOfLines (before ++ bad :: after))
                            = scan t (framesOfLines (before ++ after))).
  { intros t. rewrite !framesOfLines_app, framesOfLines_cons, Hdata.
    apply (scan_skip _ _ _ _ Hsent Hd). }
  split; [|split].
  - now rewrite payload_eq, Hd.
  - now rewrite !for_lines_scan, Hscan.
  - intros b earlier later dt value value' Hv Hv'.
    rewrite !while_reading_scan, !map_app, !map_cons. cbn [snd].
    change (framesOf value) with (framesOfLines (split LF (TextDecoder_decode value))).
    change (framesOf value') with (framesOfLines (split LF (TextDecoder_decode value'))).
    rewrite Hv, Hv'.
    rewrite (scanReads_replace _ _ _ _ _ Hscan).
    replace (readsLatency (earlier ++ (dt, value) :: later))
      with (readsLatency (earlier ++ (dt, value') :: later)); [reflexivity|].
    unfold readsLatency. rewrite !fold_right_app. reflexivity.
Qed.

End DecodeLoopClaims.

(** C1, as the specification states it: for every body, any two ways of
    cutting its bytes into reads give the same fragments and the same
    accumulated text.  A frame cut in the middle is lost: neither half
    is a frame, and nothing is carried from one read to the next. *)
Lemma C1_cut_frame_is_lost :
  ~ (forall (host : Host) (b1 b2 : Body) (st : State),
       List.concat (map snd (reads b1)) = List.concat (map snd (reads b2)) ->
       ending b1 = ending b2 ->
       fst (readStream b1 st) = fst (readStream b2 st) /\
       fragments (snd (readStream b1 st)) = fragments (snd (readStream b2 st))).
Proof.
  intros H.
  specialize (H offline wholeFrame cutFrame initial eq_refl eq_refl).
  vm_compute in H. destruct H as [H _]. discriminate H.
Qed.

(** The scenario of the specification, read by read and in one read. *)
Lemma C1_line_aligned_reads_agree_witness :
  fst (readStream (host := offline) helloByLine initial)
  = fst (readStream (host := offline) helloAtOnce initial) /\
  calls (snd (readStream (host := offline) helloByLine initial))
  = calls (snd (readStream (host := offline) helloAtOnce initial)) /\
  fragments (snd (readStream (host := offline) helloByLine initial))
  = fragments (snd (readStream (host := offline) helloAtOnce initial)).
Proof.
  apply (C1_line_aligned_reads_agree (host := offline)
           helloByLine helloAtOnce initial initial).
  - vm_compute. reflexivity.
  - reflexivity.
  - reflexivity.
  - vm_compute. repeat split; intros; try discriminate; reflexivity.
  - reflexivity.
  - reflexivity.
Defined.

(** A frame that is no JSON between two text frames. *)
Lemma C6_malformed_frame_is_skipped_witness :
  payload (host := offline) (js "Hel") (slice 6 (trim (js "data: {oops"))) initial
  = (Normal (js "Hel"), initial) /\
  for_lines (host := offline) (js "Hel")
    ([json "data: {'candidates':[{'content':{'parts':[{'text':'lo'}]}}]}"]
       ++ js "data: {oops"
       :: [json "data: {'candidates':[{'content':{'parts':[{'text':'!'}]}}]}"]) initial
  = for_lines (host := offline) (js "Hel")
    ([json "data: {'candidates':[{'content':{'parts':[{'text':'lo'}]}}]}"]
       ++ [json "data: {'candidates':[{'content':{'parts':[{'text':'!'}]}}]}"]) initial /\
  while_reading (host := offline) (mkBody [] 1 None) (js "Hel")
    ([] ++ (1, bytes "data: {'candidates':[{'content':{'parts':[{'text':'lo'}]}}]}"
                 ++ [LFbyte] ++ bytes "data: {oops" ++ [LFbyte]
                 ++ bytes "data: {'candidates':[{'content':{'parts':[{'text':'!'}]}}]}")
        :: [(1, line "data: [DONE]")]) initial
  = while_reading (host := offline) (mkBody [] 1 None) (js "Hel")
    ([] ++ (1, bytes "data: {'candidates':[{'content':{'parts':[{'text':'lo'}]}}]}"
                 ++ [LFbyte]
                 ++ bytes "data: {'candidates':[{'content':{'parts':[{'text':'!'}]}}]}")
        :: [(1, line "data: [DONE]")]) initial.
Proof.
  destruct (C6_malformed_frame_is_skipped (host := offline) (js "Hel")
              [json "data: {'candidates':[{'content':{'parts':[{'text':'lo'}]}}]}"]
              [json "data: {'candidates':[{'content':{'parts':[{'text':'!'}]}}]}"]
              (js "data: {oops") initial)
    as (Hpayload & Hlines & Hreads); [vm_compute; reflexivity ..|].
  split; [exact Hpayload | split; [exact Hlines|]].
  apply Hreads; vm_compute; reflexivity.
Defined.

(** C2.  In either copy of the service the terminal invocation is made
    once for each read in which a sentinel is met: with two sentinels in
    two reads, twice. *)
Theorem C2_two_sentinels_two_terminal_calls (v : Revision) :
  generateResponse (host := answering 5 twoSentinels) v (call true) initial
  = (Normal (mkGeminiResponse (js "Hi") 5 None),
     leaves v 9 true [mkStreamCall (js "Hi") (js "Hi") false;
                      mkStreamCall [] (js "Hi") true;
                      mkStreamCall [] (js "Hi") true]).
Proof. destruct v; vm_compute; reflexivity. Qed.

(** C5.  In either copy [break] leaves the [for] loop over the lines of
    the read at hand; the [while] loop goes on with the next read,
    whose frames are processed and reported after the terminal
    invocation. *)
Theorem C5_frames_after_the_sentinel_are_read (v : Revision) :
  generateResponse (host := answering 5 frameAfterSentinel) v (call true) initial
  = (Normal (mkGeminiResponse (js "late") 5 None),
     leaves v 8 true [mkStreamCall [] [] true;
                      mkStreamCall (js "late") (js "late") false]).
Proof. destruct v; vm_compute; reflexivity. Qed.

(** ** The result *)

(** C3.  In either copy a call whose text ends up empty returns the tag
    [Model not found] and the message about the model. *)
Theorem C3_empty_response_tagged_model_not_found (v : Revision) :
  generateResponse (host := answering 5 noCandidates) v (call false) initial
  = (Normal (mkGeminiResponse
               (js "模型 gemini-pro"
                   ++ worded v " 不存在或无权访问。请检查模型名称或 API 权限。"
                               " 不存在或无权访问。请检查模型名称或API权限。")
               9 (Some (js "Model not found"))),
     leaves v 9 false []).
Proof. destruct v; vm_compute; reflexivity. Qed.

(** C4.  In either copy the error thrown for status 429 contains
    neither [429] nor [Rate limit], which is what the [catch] clause
    looks for: the result falls through to the general case, tagged
    with the message itself. *)
Theorem C4_status_429_falls_through (v : Revision) :
  generateResponse (host := answering 5 overQuota) v (call false) initial
  = (Normal (mkGeminiResponse
               (worded v "与 Gemini 通信时出错: " "与Gemini通信时出错: "
                  ++ js "API调用频率超限: Resource has been exhausted (e.g. check quota).")
               9
               (Some (js "API调用频率超限: Resource has been exhausted (e.g. check quota)."))),
     leaves v 9 false []).
Proof. destruct v; vm_compute; reflexivity. Qed.

(** C9.  The response arrives after 5 ticks and its body takes 4 more
    to read: in either copy the call ends 9 ticks after it started and
    returns a duration of 5. *)
Theorem C9_duration_leaves_out_the_body (v : Revision) :
  generateResponse (host := answering 5 hello) v (call true) initial
  = (Normal (mkGeminiResponse (js "Hello") 5 None),
     leaves v 9 true [mkStreamCall (js "Hel") (js "Hel") false;
                      mkStreamCall (js "lo") (js "Hello") false;
                      mkStreamCall [] (js "Hello") true]).
Proof. destruct v; vm_compute; reflexivity. Qed.

Section ResultClaims.
Context {host : Host}.

(** C7.  Whatever the copy of the service, the arguments, the host and
    the state, the call completes normally with a result; and whenever
    its [try] block throws, whatever it throws, that result is the one
    the [catch] clause builds: it carries an error tag and a message
    that is not empty. *)
Theorem C7_errors_become_results (v : Revision) (a : Args) (st : State) :
  exists r st',
    generateResponse v a st = (Normal r, st') /\
    forall e st1,
      attempt v a (now st) st = (Throw e, st1) ->
      r = recover v a (now st1 - now st) e /\ st' = st1 /\
      error r <> None /\ text r <> [].
Proof.
  rewrite generateResponse_eq.
  destruct (attempt v a (now st) st) as [[r|e] st1].
  - exists r, st1. split; [reflexivity|]. intros e st2 H. discriminate H.
  - exists (recover v a (now st1 - now st) e), st1. split; [reflexivity|].
    intros e' st2 H. inversion H; subst.
    repeat split; [apply recover_tagged | apply recover_text].
Qed.

(** C8.  A result that carries an error tag has a text that is not the
    empty string. *)
Theorem C8_tagged_result_has_text (v : Revision) (a : Args) (st : State)
        (r : GeminiResponse) (st' : State) :
  generateResponse v a st = (Normal r, st') ->
  error r <> None ->
  text r <> [].
Proof.
  rewrite generateResponse_eq.
  destruct (attempt v a (now st) st) as [[r0|e] st1] eqn:Hat; intros H Herr.
  - inversion H; subst.
    apply attempt_returns in Hat as (response & _ & Hnone & _). contradiction.
  - inversion H; subst. apply recover_text.
Qed.

(** C10.  When [apiKey] is left out, empty or made of white space only,
    the call sends no request (the state, and with it the list of
    requests, is as before) and returns the invalid-key message under
    the tag [API key not valid]. *)
Theorem C10_missing_key_sends_nothing (v : Revision) (a : Args) (st : State) :
  (apiKey a = None \/
   exists k, apiKey a = Some k /\ forallb isWhiteSpace k = true) ->
  generateResponse v a st =
  (Normal (mkGeminiResponse
             (worded v "API密钥无效或已过期。请检查您的 Gemini API 密钥配置。"
                       "API密钥无效或已过期。请检查您的Gemini API密钥配置。")
             0 (Some (js "API key not valid"))),
   st).
Proof.
  intros H.
  assert (Hm : apiKeyMissing (apiKey a) = true).
  { destruct H as [-> | (k & -> & Hk)]; [reflexivity|].
    cbn. now rewrite (trim_white _ Hk). }
  rewrite generateResponse_eq. unfold attempt. rewrite Hm.
  unfold bind at 1. unfold throw at 1. cbv iota beta.
  now rewrite Z.sub_diag, missing_key_reads_as_invalid_key.
Qed.

End ResultClaims.

(** A call without network: the result of the [catch] clause. *)
Lemma C8_tagged_result_has_text_witness :
  text (recover Revised (call false) 0 (ErrorObject (js "Failed to fetch"))) <> [].
Proof.
  apply (C8_tagged_result_has_text (host := offline) Revised (call false) initial
           (st' := leaves Revised 0 false [])).
  - vm_compute. reflexivity.
  - vm_compute. discriminate.
Defined.

(** A key of two spaces, given to the unrevised copy. *)
Lemma C10_missing_key_sends_nothing_witness :
  generateResponse (host := offline) Unrevised
    (mkArgs (js "Hi") (js "gemini-pro") None false None None (Some (js "  ")) true)
    initial =
  (Normal (mkGeminiResponse
             (js "API密钥无效或已过期。请检查您的Gemini API密钥配置。")
             0 (Some (js "API key not valid"))),
   initial).
Proof.
  apply (C10_missing_key_sends_nothing (host := offline) Unrevised).
  right. exists (js "  "). split; reflexivity.
Defined.

(* ================================================================== *)
(** * Further facts about the Gemini service *)
(* ================================================================== *)

Module ServiceFacts.
Import HttpErrors.

(** Two states that differ in the writing of their clock only. *)
Ltac same_state :=
  unfold later, arrived, addCalls;
  cbn [fst snd now requests calls readerLocked];
  rewrite ?app_nil_r; f_equal; lia.
Section WithHost.
Context {host : Host}.

(** The [catch] clause leaves the state as the [try] block left it. *)
Lemma generateResponse_state v a st :
  snd (generateResponse v a st) = snd (attempt v a (now st) st).
Proof.
  rewrite generateResponse_eq.
  now destruct (attempt v a (now st) st) as [[r|e] st'].
Qed.

Lemma Response_json_eq response st :
  Response_json response st
  = (bodyJson (bodyOf response), later st (total_latency (bodyOf response)) []).
Proof.
  unfold Response_json, bind, elapse, eval, later.
  cbn [now requests calls readerLocked]. now rewrite app_nil_r.
Qed.

(** The [try] block of a call with a key whose request is answered with
    a good status. *)
Lemma attempt_answered v a st dt response :
  apiKeyMissing (apiKey a) = false ->
  fetch_reply (request v a) = (dt, Normal response) ->
  ok response = true ->
  attempt v a (now st) st =
  match
    match onStreamChunk a, body response with
    | true, Some b => readStream b (arrived v a st dt)
    | _, _ =>
        (bindC (bodyJson (bodyOf response)) candidatesText,
         later (arrived v a st dt) (total_latency (bodyOf response)) [])
    end
  with
  | (Throw e, st') => (Throw e, st')
  | (Normal fullText, st') =>
      match trim fullText with
      | [] => (Throw (ErrorObject
                        (worded v "AI 响应为空，请检查模型配置或重试。"
                                  "AI响应为空，请检查模型配置或重试")), st')
      | _ :: _ => (Normal (mkGeminiResponse fullText dt None), st')
      end
  end.
Proof.
  intros Hkey Hreply Hok. unfold attempt. rewrite Hkey.
  unfold bind at 1. unfold ret at 1. unfold bind at 1. unfold fetch at 1.
  rewrite Hreply. fold (arrived v a st dt). unfold bind at 1.
  rewrite Hok. cbn [negb].
  unfold ret at 1. unfold bind at 1. unfold performance_now at 1.
  unfold bind at 1.
  replace (now (arrived v a st dt) - now st) with dt by (cbn; lia).
  assert (Hjson : (data <- Response_json response ;; eval (candidatesText data))
                    (arrived v a st dt)
                  = (bindC (bodyJson (bodyOf response)) candidatesText,
                     later (arrived v a st dt) (total_latency (bodyOf response)) [])).
  { unfold bind. rewrite Response_json_eq.
    destruct (bodyJson (bodyOf response)); reflexivity. }
  destruct (onStreamChunk a), (body response) as [b|]; try rewrite Hjson.
  - destruct (readStream b (arrived v a st dt)) as [[fullText|e] st']; [|reflexivity].
    destruct (trim fullText); reflexivity.
  - destruct (bindC _ _) as [fullText|e]; [|reflexivity].
    destruct (trim fullText); reflexivity.
  - destruct (bindC _ _) as [fullText|e]; [|reflexivity].
    destruct (trim fullText); reflexivity.
  - destruct (bindC _ _) as [fullText|e]; [|reflexivity].
    destruct (trim fullText); reflexivity.
Qed.

(** What a call with a key does to the state, whatever comes back: one
    request more, the reader not locked unless it was, and invocations
    of the callback only when there is one. *)
Lemma attempt_footprint v a st :
  apiKeyMissing (apiKey a) = false ->
  exists dt evs locked,
    snd (attempt v a (now st) st)
    = mkState (now st + dt) (requests st ++ [request v a]) (calls st ++ evs) locked /\
    (onStreamChunk a = false -> evs = []) /\
    (locked = false \/ locked = readerLocked st).
Proof.
  intros Hkey.
  destruct (fetch_reply (request v a)) as [dt [response|e]] eqn:Hreply.
  2: { rewrite (network_failure_throws v a st Hkey Hreply).
       exists dt, [], (readerLocked st). cbn [snd]. rewrite app_nil_r. auto. }
  destruct (ok response) eqn:Hok.
  2: { destruct (rejectStatus_throws a response (arrived v a st dt)) as [e He].
       rewrite (attempt_rejected v a st Hkey Hreply Hok He).
       exists (dt + total_latency (bodyOf response)), [], (readerLocked st).
       split; [same_state | auto]. }
  rewrite (attempt_answered v a st Hkey Hreply Hok).
  destruct (onStreamChunk a) eqn:Hcb, (body response) as [b|] eqn:Hb.
  - rewrite readStream_scan.
    exists (dt + (readsLatency (reads b) + end_latency b)),
      (snd (scanReads [] (map (fun rd => framesOf (snd rd)) (reads b)))), false.
    split; [|split; [discriminate | now left]].
    destruct (ending b); [|destruct (trim _)]; same_state.
  - exists (dt + total_latency (bodyOf response)), [], (readerLocked st).
    split; [|split; [reflexivity | now right]].
    destruct (bindC _ _) as [t|e]; [destruct (trim t)|]; same_state.
  - exists (dt + total_latency (bodyOf response)), [], (readerLocked st).
    split; [|split; [reflexivity | now right]].
    destruct (bindC _ _) as [t|e]; [destruct (trim t)|]; same_state.
  - exists (dt + total_latency (bodyOf response)), [], (readerLocked st).
    split; [|split; [reflexivity | now right]].
    destruct (bindC _ _) as [t|e]; [destruct (trim t)|]; same_state.
Qed.

Lemma attempt_missing_key v a t st :
  apiKeyMissing (apiKey a) = true ->
  attempt v a t st
  = (Throw (ErrorObject (worded v "API密钥未设置。请配置您的 Gemini API 密钥。"
                                  "API密钥未设置。请配置您的Gemini API密钥。")), st).
Proof. intros H. unfold attempt. now rewrite H. Qed.

(** What any call does to the state. *)
Lemma generateResponse_footprint v a st :
  exists dt sent evs locked,
    snd (generateResponse v a st)
    = mkState (now st + dt) (requests st ++ sent) (calls st ++ evs) locked /\
    (sent = if apiKeyMissing (apiKey a) then [] else [request v a]) /\
    (onStreamChunk a = false -> evs = []) /\
    (locked = false \/ locked = readerLocked st).
Proof.
  rewrite generateResponse_state.
  destruct (apiKeyMissing (apiKey a)) eqn:Hkey.
  - rewrite (attempt_missing_key v a _ st Hkey).
    exists 0, [], [], (readerLocked st). cbn [snd].
    rewrite !app_nil_r, Z.add_0_r. destruct st; auto.
  - destruct (attempt_footprint v a st Hkey) as (dt & evs & locked & E & H1 & H2).
    exists dt, [request v a], evs, locked. auto.
Qed.

(** ** Joining the texts of the parts *)

Lemma mapC_textParts parts : forall ts,
  Forall2 textPart parts ts ->
  mapC (fun p => getMember p (js "text")) parts = Normal (map JString ts).
Proof.
  induction parts as [|p parts IH]; intros ts H; inversion H; subst; [reflexivity|].
  cbn [mapC map]. rewrite (IH _ H4).
  destruct H2 as (members & -> & Ht). cbn [getMember bindC]. now rewrite Ht.
Qed.

Lemma join_strings ts : Array_join (map JString ts) [] = Normal (List.concat ts).
Proof.
  unfold Array_join. induction ts as [|t ts IH]; [reflexivity|].
  cbn [map join_with List.concat isNullish ToString bindC].
  destruct ts as [|t' ts]; [cbn; now rewrite app_nil_r|].
  cbn [map] in *. rewrite IH. reflexivity.
Qed.

Lemma candidatesText_reply data ts :
  replyWithTexts data ts -> candidatesText data = Normal (List.concat ts).
Proof.
  intros (members & candidate & others & content & parts & -> & Hc & Hcontent & Hparts & Hts).
  unfold candidatesText. cbn [getMember bindC]. rewrite Hc. cbn [isNullish getIndex0 bindC].
  cbn [getMember]. rewrite Hcontent. cbn [bindC isNullish getMember]. rewrite Hparts.
  cbn [bindC isNullish Array_map]. rewrite (mapC_textParts Hts). cbn [bindC].
  rewrite join_strings. cbn [bindC]. now destruct (List.concat ts).
Qed.

End WithHost.
End ServiceFacts.
Import ServiceFacts.

(* ================================================================== *)
(** * Further properties of the Gemini service *)
(* ================================================================== *)

Import HttpErrors.

Section ServiceProperties.
Context {host : Host}.

(** X1.  A call with a key sends exactly one request, the one built
    from its arguments, whatever the server answers and whether the
    call succeeds or not: nothing is sent twice. *)
Theorem keyed_call_sends_one_request (v : Revision) (a : Args) (st : State) :
  apiKeyMissing (apiKey a) = false ->
  requests (snd (generateResponse v a st)) = requests st ++ [request v a].
Proof.
  intros Hkey.
  destruct (generateResponse_footprint v a st) as (dt & sent & evs & locked & E & Hs & _).
  rewrite E, Hs, Hkey. reflexivity.
Qed.

(** X2.  A call without a callback makes no invocation, on any path. *)
Theorem no_callback_no_invocation (v : Revision) (a : Args) (st : State) :
  onStreamChunk a = false ->
  calls (snd (generateResponse v a st)) = calls st.
Proof.
  intros Hcb.
  destruct (generateResponse_footprint v a st) as (dt & sent & evs & locked & E & _ & He & _).
  rewrite E, (He Hcb). cbn. apply app_nil_r.
Qed.

(** X3.  No path through the call leaves the body reader locked. *)
Theorem reader_never_left_locked (v : Revision) (a : Args) (st : State) :
  readerLocked st = false ->
  readerLocked (snd (generateResponse v a st)) = false.
Proof.
  intros Hl.
  destruct (generateResponse_footprint v a st) as (dt & sent & evs & locked & E & _ & _ & H).
  rewrite E. cbn. destruct H as [-> | ->]; auto.
Qed.

(** X4.  A result without an error tag has a text that is not blank;
    its request was answered, and its duration is the time the answer
    took to arrive. *)
Theorem success_has_text_and_time_to_response
        (v : Revision) (a : Args) (st : State) (r : GeminiResponse) (st' : State) :
  generateResponse v a st = (Normal r, st') ->
  error r = None ->
  trim (text r) <> [] /\
  exists response,
    snd (fetch_reply (request v a)) = Normal response /\
    durationMs r = fst (fetch_reply (request v a)).
Proof.
  rewrite generateResponse_eq.
  destruct (attempt v a (now st) st) as [[r0|e] st1] eqn:Hat; intros H Hnone;
    inversion H; subst.
  - apply attempt_returns in Hat as (response & Hr & _ & Ht & Hd & _).
    split; [assumption|]. exists response. split; [assumption|]. lia.
  - now apply recover_tagged in Hnone.
Qed.

(** X5.  A result with an error tag has for duration the time that
    passed from the start of the call to its end. *)
Theorem failure_duration_is_elapsed_time
        (v : Revision) (a : Args) (st : State) (r : GeminiResponse) (st' : State) :
  generateResponse v a st = (Normal r, st') ->
  error r <> None ->
  durationMs r = now st' - now st.
Proof.
  rewrite generateResponse_eq.
  destruct (attempt v a (now st) st) as [[r0|e] st1] eqn:Hat; intros H Herr;
    inversion H; subst.
  - apply attempt_returns in Hat as (response & _ & Hnone & _). contradiction.
  - apply recover_duration.
Qed.

(** X6.  A request that fails with an [Error] whose message holds
    [fetch] or [网络], and none of the marks looked for before, gives
    the network-error result after the time the failure took; no
    callback is invoked. *)
Theorem network_failure_is_network_error
        (v : Revision) (a : Args) (st : State) (dt : Z) (m : jsstring) :
  apiKeyMissing (apiKey a) = false ->
  fetch_reply (request v a) = (dt, Throw (ErrorObject m)) ->
  marksBeforeNetwork m = false ->
  includes m (js "网络") || includes m (js "fetch") = true ->
  generateResponse v a st
  = (Normal (mkGeminiResponse
               (worded v "网络连接错误，请检查网络后重试。"
                         "网络连接错误，请检查网络连接后重试。")
               dt (Some (js "Network error"))),
     arrived v a st dt).
Proof.
  intros Hkey Hreply Hmarks Hnet. rewrite generateResponse_eq.
  rewrite (network_failure_throws v a st Hkey Hreply). fold (arrived v a st dt).
  unfold marksBeforeNetwork, marksOfKeyOrRate in Hmarks.
  repeat (apply orb_false_iff in Hmarks; destruct Hmarks as [Hmarks ?]).
  unfold recover.
  repeat match goal with
         | E : includes _ _ = false |- _ => rewrite E; clear E
         end.
  cbn [orb]. rewrite Hnet. do 3 f_equal. cbn. lia.
Qed.

(** X7.  A request that fails with a value that is no [Error] gives the
    unknown-error result. *)
Theorem foreign_throw_is_unknown_error
        (v : Revision) (a : Args) (st : State) (dt : Z) :
  apiKeyMissing (apiKey a) = false ->
  fetch_reply (request v a) = (dt, Throw OtherValue) ->
  generateResponse v a st
  = (Normal (mkGeminiResponse
               (worded v "与 Gemini 通信时发生未知错误。" "与Gemini通信时发生未知错误。")
               dt (Some (js "Unknown Gemini error"))),
     arrived v a st dt).
Proof.
  intros Hkey Hreply. rewrite generateResponse_eq.
  rewrite (network_failure_throws v a st Hkey Hreply). fold (arrived v a st dt).
  cbn [recover]. do 3 f_equal. cbn. lia.
Qed.

(** X8.  The chain takes the texts of the parts of the first candidate,
    in order, and joins them; the other candidates and the other
    members of the reply do not count. *)
Theorem first_candidate_texts_are_joined (data : JSValue) (ts : list jsstring) :
  replyWithTexts data ts ->
  candidatesText data = Normal (List.concat ts).
Proof. apply candidatesText_reply. Qed.

(** X9.  A call without callback whose request is answered with a good
    status and a reply of the API's shape returns the joined texts of
    the first candidate, provided they are not blank; the duration is
    the time to the response, though the call ends when the body has
    been read. *)
Theorem non_streaming_success
        (v : Revision) (a : Args) (st : State) (dt : Z) (response : Response)
        (data : JSValue) (ts : list jsstring) :
  apiKeyMissing (apiKey a) = false ->
  onStreamChunk a = false ->
  fetch_reply (request v a) = (dt, Normal response) ->
  ok response = true ->
  bodyJson (bodyOf response) = Normal data ->
  replyWithTexts data ts ->
  trim (List.concat ts) <> [] ->
  generateResponse v a st
  = (Normal (mkGeminiResponse (List.concat ts) dt None),
     later (arrived v a st dt) (total_latency (bodyOf response)) []).
Proof.
  intros Hkey Hcb Hreply Hok Hjson Hshape Htext. rewrite generateResponse_eq.
  rewrite (attempt_answered v a st Hkey Hreply Hok), Hcb, Hjson.
  cbn [bindC]. rewrite (candidatesText_reply Hshape).
  destruct (trim (List.concat ts)); [contradiction|reflexivity].
Qed.

(** X10.  A call without callback whose reply yields a blank text ends
    in the result tagged [Model not found]: the message thrown for the
    empty response holds the word that branch looks for. *)
Theorem blank_text_is_reported_as_missing_model
        (v : Revision) (a : Args) (st : State) (dt : Z) (response : Response)
        (data : JSValue) (t : jsstring) :
  apiKeyMissing (apiKey a) = false ->
  onStreamChunk a = false ->
  fetch_reply (request v a) = (dt, Normal response) ->
  ok response = true ->
  bodyJson (bodyOf response) = Normal data ->
  candidatesText data = Normal t ->
  trim t = [] ->
  generateResponse v a st
  = (Normal (mkGeminiResponse
               (js "模型 " ++ modelName a
                   ++ worded v " 不存在或无权访问。请检查模型名称或 API 权限。"
                               " 不存在或无权访问。请检查模型名称或API权限。")
               (dt + total_latency (bodyOf response))
               (Some (js "Model not found"))),
     later (arrived v a st dt) (total_latency (bodyOf response)) []).
Proof.
  intros Hkey Hcb Hreply Hok Hjson Htext Hblank. rewrite generateResponse_eq.
  rewrite (attempt_answered v a st Hkey Hreply Hok), Hcb, Hjson.
  cbn [bindC]. rewrite Htext, Hblank.
  rewrite empty_response_reads_as_missing_model. do 3 f_equal. cbn. lia.
Qed.

End ServiceProperties.

(* ================================================================== *)
(** * Further properties of the decode loop *)
(* ================================================================== *)

Module ChainFacts.

Lemma eqb_true a : forall b, JsString.eqb a b = true -> a = b.
Proof.
  induction a as [|x a IH]; destruct b as [|y b]; cbn; try discriminate; [reflexivity|].
  intros H. apply andb_true_iff in H as [Hx Hr].
  apply Z.eqb_eq in Hx. subst y. now rewrite (IH _ Hr).
Qed.

Lemma chained_app e1 : forall before e2,
  chained before e1 ->
  chained (before ++ List.concat (map newChunk e1)) e2 ->
  chained before (e1 ++ e2).
Proof.
  induction e1 as [|c e1 IH]; intros before e2 H1 H2.
  - cbn in *. now rewrite app_nil_r in H2.
  - cbn [app chained map List.concat] in *. destruct H1 as [Hc H1].
    split; [assumption|]. apply IH; [assumption|].
    now rewrite Hc, <- app_assoc.
Qed.

Section WithHost.
Context {host : Host}.

Lemma scan_chained fs : forall fullText,
  chained fullText (snd (scan fullText fs)) /\
  fst (scan fullText fs)
  = fullText ++ List.concat (map newChunk (snd (scan fullText fs))).
Proof.
  induction fs as [|f fs IH]; intros fullText.
  - cbn. now rewrite app_nil_r.
  - rewrite scan_cons. destruct (isSentinel f).
    + cbn. now rewrite !app_nil_r.
    + destruct (delta f) as [|c t]; [apply IH|].
      destruct (IH (fullText ++ c :: t)) as [Hch Hf].
      cbn [fst snd chained map List.concat newChunk fullTextSoFar].
      split; [split; [reflexivity | assumption]|].
      now rewrite Hf, <- app_assoc.
Qed.

Lemma scanReads_chained reads : forall fullText,
  chained fullText (snd (scanReads fullText reads)) /\
  fst (scanReads fullText reads)
  = fullText ++ List.concat (map newChunk (snd (scanReads fullText reads))).
Proof.
  induction reads as [|fs reads IH]; intros fullText.
  - cbn. now rewrite app_nil_r.
  - rewrite scanReads_cons. cbn [fst snd].
    destruct (scan_chained fs fullText) as [Hch Hf].
    destruct (IH (fst (scan fullText fs))) as [Hch' Hf'].
    split.
    + apply chained_app; [assumption|]. now rewrite <- Hf.
    + rewrite Hf' at 1. rewrite Hf at 1.
      now rewrite map_app, concat_app, <- app_assoc.
Qed.

End WithHost.
End ChainFacts.
Import ChainFacts.

Section LoopProperties.
Context {host : Host}.

(** X11.  In the streaming branch every invocation of the callback
    carries the text of the invocation before it followed by its own
    fragment, starting from the empty text; and when the body ends
    without failure, the text the branch returns is the fragments
    joined in order. *)
Theorem invocations_accumulate_the_fragments (b : Body) (st : State) :
  exists evs,
    calls (snd (readStream b st)) = calls st ++ evs /\
    chained [] evs /\
    (ending b = None ->
     fst (readStream b st) = Normal (List.concat (map newChunk evs))).
Proof.
  rewrite readStream_scan. cbn [fst snd calls].
  destruct (scanReads_chained (map (fun rd => framesOf (snd rd)) (reads b)) [])
    as [Hch Hf].
  eexists. split; [reflexivity|]. split; [assumption|].
  intros ->. now rewrite Hf.
Qed.

(** X12.  A streaming call that succeeds returns exactly what it handed
    to the callback: its text is the fragments of the invocations it
    made, joined in order. *)
Theorem streamed_text_is_the_fragments_joined
        (v : Revision) (a : Args) (st : State) (dt : Z) (response : Response)
        (b : Body) (r : GeminiResponse) (st' : State) :
  onStreamChunk a = true ->
  fetch_reply (request v a) = (dt, Normal response) ->
  body response = Some b ->
  generateResponse v a st = (Normal r, st') ->
  error r = None ->
  exists evs,
    calls st' = calls st ++ evs /\
    text r = List.concat (map newChunk evs).
Proof.
  intros Hcb Hreply Hb Hgen Hnone. rewrite generateResponse_eq in Hgen.
  destruct (attempt v a (now st) st) as [[r0|e] st1] eqn:Hat;
    inversion Hgen; subst; [|now apply recover_tagged in Hnone].
  destruct (apiKeyMissing (apiKey a)) eqn:Hkey.
  { rewrite (attempt_missing_key v a _ st Hkey) in Hat. discriminate Hat. }
  destruct (ok response) eqn:Hok.
  2: { destruct (rejectStatus_throws a response (arrived v a st dt)) as [e He].
       rewrite (attempt_rejected v a st Hkey Hreply Hok He) in Hat.
       discriminate Hat. }
  rewrite (attempt_answered v a st Hkey Hreply Hok), Hcb, Hb in Hat.
  rewrite readStream_scan in Hat.
  destruct (scanReads_chained (map (fun rd => framesOf (snd rd)) (reads b)) [])
    as [_ Hf].
  destruct (ending b); [discriminate Hat|].
  destruct (trim _) eqn:Ht; [discriminate Hat|].
  inversion Hat; subst. cbn [calls text arrived later addCalls].
  eexists. split; [reflexivity|]. now rewrite Hf.
Qed.

(** X13.  When the transport fails in the middle of a stream, the call
    returns what the [catch] clause makes of that failure, with the
    whole time that passed; the text accumulated so far is not
    returned, though the fragments read before the failure have been
    handed to the callback. *)
Theorem broken_stream_is_an_error
        (v : Revision) (a : Args) (st : State) (dt : Z) (response : Response)
        (b : Body) (e : Thrown) :
  apiKeyMissing (apiKey a) = false ->
  onStreamChunk a = true ->
  fetch_reply (request v a) = (dt, Normal response) ->
  ok response = true ->
  body response = Some b ->
  ending b = Some e ->
  fst (generateResponse v a st)
  = Normal (recover v a (dt + total_latency b) e) /\
  calls (snd (generateResponse v a st))
  = calls (snd (readStream b (arrived v a st dt))).
Proof.
  intros Hkey Hcb Hreply Hok Hb Hend. rewrite generateResponse_eq.
  rewrite (attempt_answered v a st Hkey Hreply Hok), Hcb, Hb.
  rewrite readStream_scan, Hend. cbn [fst snd calls now arrived].
  split; [|reflexivity]. do 2 f_equal. rewrite total_latency_reads. lia.
Qed.

(** X14.  The sentinel ends the read it stands in: the lines after it
    in the same read are not looked at. *)
Theorem sentinel_ends_the_read
        (fullText : jsstring) (before after : list jsstring) (line : jsstring)
        (st : State) :
  trim line = js "data: [DONE]" ->
  for_lines fullText (before ++ line :: after) st
  = for_lines fullText (before ++ [line]) st.
Proof.
  intros Hline. rewrite !for_lines_scan, !framesOfLines_app, !framesOfLines_cons, Hline.
  change (isData (js "data: [DONE]")) with true. cbv iota.
  change (slice 6 (js "data: [DONE]")) with (js "[DONE]").
  change (framesOfLines []) with (@nil jsstring).
  now rewrite scan_stops_at_sentinel.
Qed.

(** X15.  A line that, trimmed, does not start with [data: ] (an empty
    line, a comment, an [event:] line) changes nothing. *)
Theorem other_lines_are_ignored
        (fullText : jsstring) (before after : list jsstring) (line : jsstring)
        (st : State) :
  startsWith (trim line) (js "data: ") = false ->
  for_lines fullText (before ++ line :: after) st
  = for_lines fullText (before ++ after) st.
Proof.
  intros Hline. rewrite !for_lines_scan, !framesOfLines_app, framesOfLines_cons.
  unfold isData. now rewrite Hline.
Qed.

(** X16.  A payload that is JSON of another shape, on which the chain
    throws (the value [null], parts that are no array, a part that is
    [null]), is skipped like one that is no JSON: the accumulated text
    and the state stay as they were and the lines after it are
    processed. *)
Theorem frame_of_another_shape_is_skipped
        (fullText : jsstring) (before after : list jsstring) (line : jsstring)
        (data : JSValue) (e : Thrown) (st : State) :
  startsWith (trim line) (js "data: ") = true ->
  JSON_parse (slice 6 (trim line)) = Some data ->
  candidatesText data = Throw e ->
  payload fullText (slice 6 (trim line)) st = (Normal fullText, st) /\
  for_lines fullText (before ++ line :: after) st
  = for_lines fullText (before ++ after) st.
Proof.
  intros Hdata Hparse Hthrow.
  assert (Hd : delta (slice 6 (trim line)) = []).
  { unfold delta, JSON_parse_throwing. rewrite Hparse. cbn [bindC]. now rewrite Hthrow. }
  assert (Hs : isSentinel (slice 6 (trim line)) = false).
  { destruct (isSentinel (slice 6 (trim line))) eqn:E; [|reflexivity].
    apply eqb_true in E. rewrite E in Hparse. discriminate Hparse. }
  split.
  - now rewrite payload_eq, Hd.
  - rewrite !for_lines_scan, !framesOfLines_app, framesOfLines_cons.
    unfold isData. rewrite Hdata. now rewrite (scan_skip _ _ _ _ Hs Hd).
Qed.

(** X17.  A data line whose payload is a reply of the API's shape with
    texts that are not all empty is reported once: the joined texts are
    appended to the accumulated text and handed to the callback with
    the new accumulated text, and the loop goes on with the next
    line. *)
Theorem text_frame_is_reported_once
        (fullText : jsstring) (line : jsstring) (rest : list jsstring)
        (data : JSValue) (ts : list jsstring) (st : State) :
  startsWith (trim line) (js "data: ") = true ->
  JSON_parse (slice 6 (trim line)) = Some data ->
  replyWithTexts data ts ->
  List.concat ts <> [] ->
  for_lines fullText (line :: rest) st
  = for_lines (fullText ++ List.concat ts) rest
      (addCalls st [mkStreamCall (List.concat ts) (fullText ++ List.concat ts) false]).
Proof.
  intros Hdata Hparse Hshape Htext.
  assert (Hd : delta (slice 6 (trim line)) = List.concat ts).
  { unfold delta, JSON_parse_throwing. rewrite Hparse. cbn [bindC].
    now rewrite (candidatesText_reply Hshape). }
  assert (Hs : isSentinel (slice 6 (trim line)) = false).
  { destruct (isSentinel (slice 6 (trim line))) eqn:E; [|reflexivity].
    apply eqb_true in E. rewrite E in Hparse. discriminate Hparse. }
  rewrite for_lines_cons. unfold isData. rewrite Hdata, Hs. cbn [negb].
  unfold bind at 1. rewrite payload_eq, Hd.
  destruct (List.concat ts); [contradiction|reflexivity].
Qed.

End LoopProperties.

(* ================================================================== *)
(** * The connectivity probe *)
(* ================================================================== *)

Module ProbeFacts.
Import ApiTestService.

Lemma withoutTrailingSlash_added s : withoutTrailingSlash (s ++ [47]) = s.
Proof.
  unfold withoutTrailingSlash. rewrite rev_app_distr. cbn [rev app].
  rewrite Z.eqb_refl. apply rev_involutive.
Qed.

Lemma withoutTrailingSlash_none s :
  endsWithSlash s = false -> withoutTrailingSlash s = s.
Proof.
  unfold endsWithSlash, withoutTrailingSlash.
  destruct (rev s) as [|c r]; [reflexivity|]. now intros ->.
Qed.

End ProbeFacts.

Section ProbeProperties.
Context {host : Host}.
Import ApiTestService ProbeFacts.

(** X18.  The probe never throws and never looks at the key before it
    sends: it issues exactly one request, and it reports success
    exactly when that request is answered with a status from 200 to
    299. *)
Theorem probe_succeeds_exactly_on_ok
        (baseUrl apiKey : jsstring) (name : option jsstring) (st : State) :
  exists r,
    testApiChannel baseUrl apiKey name st
    = (Normal r,
       mkState (now st + fst (fetch_reply (probe baseUrl apiKey name)))
               (requests st ++ [probe baseUrl apiKey name])
               (calls st) (readerLocked st)) /\
    (success r = true <->
     exists response,
       snd (fetch_reply (probe baseUrl apiKey name)) = Normal response /\
       200 <= status response <= 299).
Proof.
  unfold testApiChannel, tryCatch, bind, fetch.
  destruct (fetch_reply (probe baseUrl apiKey name)) as [dt [response|e]];
    cbn [fst snd].
  - destruct (ok response) eqn:Hok; cbn [negb]; unfold ret;
      eexists; (split; [reflexivity|]); cbn [success]; unfold ok in Hok.
    + split; [intros _|reflexivity]. exists response. split; [reflexivity|lia].
    + split; [discriminate|]. intros (r' & Hr & Hs). inversion Hr; subst. lia.
  - unfold ret. eexists. split; [reflexivity|]. cbn [success].
    split; [discriminate|]. intros (r' & Hr & _). discriminate Hr.
Qed.

(** X19.  One slash at the end of the base URL makes no difference to
    the request the probe sends, as long as it makes none to the choice
    of the channel. *)
Theorem trailing_slash_is_immaterial
        (baseUrl apiKey : jsstring) (name : option jsstring) :
  endsWithSlash baseUrl = false ->
  isGeminiChannel (baseUrl ++ js "/") name = isGeminiChannel baseUrl name ->
  probe (baseUrl ++ js "/") apiKey name = probe baseUrl apiKey name.
Proof.
  intros Hslash Hroute. unfold probe. rewrite Hroute.
  change (js "/") with [47]. rewrite withoutTrailingSlash_added.
  now rewrite (withoutTrailingSlash_none _ Hslash).
Qed.

End ProbeProperties.

(* ================================================================== *)
(** * Statuses without a branch of their own, replies without a body *)
(* ================================================================== *)

Module StatusFacts.
Import HttpErrors.
Section WithHost.
Context {host : Host}.

Lemma rejectStatus_other a response st em m :
  status response <> 401 -> status response <> 429 -> status response <> 404 ->
  errorMessageOf (errorDataOf response) response = Normal em ->
  ToString em = Normal m ->
  rejectStatus a response st
  = (Throw (ErrorObject (js "Gemini API 错误 (" ++ decimal (status response)
                            ++ js "): " ++ m)),
     later st (total_latency (bodyOf response)) []).
Proof.
  intros H1 H2 H3 Hem Hm. unfold rejectStatus. unfold bind at 1. rewrite errorData_eq.
  unfold bind at 1. unfold eval at 1. rewrite Hem.
  apply Z.eqb_neq in H1, H2, H3. rewrite H1, H2, H3.
  unfold bind, eval, throw. now rewrite Hm.
Qed.

End WithHost.
End StatusFacts.

Section StatusProperties.
Context {host : Host}.
Import StatusFacts.

(** X20.  A status that is not from 200 to 299 and is none of 401, 429
    and 404 has no result of its own: the message thrown for it, which
    ends with the server's message, is handed on as the error tag,
    unless it holds one of the marks the [catch] clause looks for. *)
Theorem other_status_hands_the_message_on
        (v : Revision) (a : Args) (st : State) (dt : Z) (response : Response)
        (em : JSValue) (m : jsstring) :
  apiKeyMissing (apiKey a) = false ->
  fetch_reply (request v a) = (dt, Normal response) ->
  ok response = false ->
  status response <> 401 -> status response <> 429 -> status response <> 404 ->
  errorMessageOf (errorDataOf response) response = Normal em ->
  ToString em = Normal m ->
  marksBeforeNetwork (js "Gemini API 错误 (" ++ decimal (status response)
                         ++ js "): " ++ m) = false ->
  includes (js "Gemini API 错误 (" ++ decimal (status response) ++ js "): " ++ m)
           (js "网络")
  || includes (js "Gemini API 错误 (" ++ decimal (status response) ++ js "): " ++ m)
              (js "fetch") = false ->
  fst (generateResponse v a st)
  = Normal (mkGeminiResponse
              (worded v "与 Gemini 通信时出错: " "与Gemini通信时出错: "
                 ++ js "Gemini API 错误 (" ++ decimal (status response)
                 ++ js "): " ++ m)
              (dt + total_latency (bodyOf response))
              (Some (js "Gemini API 错误 (" ++ decimal (status response)
                        ++ js "): " ++ m))).
Proof.
  intros Hkey Hreply Hok H1 H2 H3 Hem Hm Hmarks Hnet. rewrite generateResponse_eq.
  rewrite (HttpErrors.attempt_rejected v a st Hkey Hreply Hok
             (@rejectStatus_other _ a response _ em m H1 H2 H3 Hem Hm)).
  cbn [fst later now].
  unfold marksBeforeNetwork, marksOfKeyOrRate in Hmarks.
  apply orb_false_iff in Hmarks as [Hmarks Hmodel].
  apply orb_false_iff in Hmarks as [Hmarks H404].
  apply orb_false_iff in Hmarks as [Hmarks Hrate].
  apply orb_false_iff in Hmarks as [Hmarks H429].
  apply orb_false_iff in Hmarks as [Hmarks Hname].
  apply orb_false_iff in Hmarks as [Hkeymark H401].
  unfold recover.
  rewrite Hkeymark, H401, Hname, H429, Hrate, H404, Hmodel, Hnet. cbn [orb].
  do 2 f_equal. lia.
Qed.

(** X21.  A reply without a body is never streamed: no invocation of
    the callback is made, not even the terminal one, though a callback
    was given. *)
Theorem no_body_no_invocation
        (v : Revision) (a : Args) (st : State) (dt : Z) (response : Response) :
  fetch_reply (request v a) = (dt, Normal response) ->
  body response = None ->
  calls (snd (generateResponse v a st)) = calls st.
Proof.
  intros Hreply Hbody.
  destruct (apiKeyMissing (apiKey a)) eqn:Hkey.
  { rewrite generateResponse_eq, (attempt_missing_key v a _ st Hkey). reflexivity. }
  destruct (ok response) eqn:Hok.
  - rewrite generateResponse_eq, (attempt_answered v a st Hkey Hreply Hok), Hbody.
    assert (E : match onStreamChunk a with
                | true | _ =>
                    (bindC (bodyJson (bodyOf response)) candidatesText,
                     later (arrived v a st dt) (total_latency (bodyOf response)) [])
                end
                = (bindC (bodyJson (bodyOf response)) candidatesText,
                   later (arrived v a st dt) (total_latency (bodyOf response)) []))
      by now destruct (onStreamChunk a).
    rewrite E.
    destruct (bindC (bodyJson (bodyOf response)) candidatesText) as [t|e];
      [destruct (trim t)|]; cbn; now rewrite app_nil_r.
  - destruct (rejectStatus_throws a response (arrived v a st dt)) as [e He].
    rewrite generateResponse_eq, (HttpErrors.attempt_rejected v a st Hkey Hreply Hok He).
    cbn. now rewrite app_nil_r.
Qed.

End StatusProperties.

(* ================================================================== *)
(** * The properties on the scenarios *)
(* ================================================================== *)

(** The shape of a reply, shown member by member. *)
Ltac reply_shape :=
  do 5 eexists;
  split; [reflexivity|]; split; [reflexivity|]; split; [reflexivity|];
  split; [reflexivity|];
  repeat (constructor; [eexists; split; reflexivity|]); constructor.

(** ** The Gemini service *)

Lemma keyed_call_sends_one_request_witness :
  requests (snd (generateResponse (host := offline) Revised (call false) initial))
  = requests initial ++ [request Revised (call false)].
Proof.
  apply (keyed_call_sends_one_request (host := offline) Revised (call false) initial).
  reflexivity.
Defined.

Lemma no_callback_no_invocation_witness :
  calls (snd (generateResponse (host := answering 5 hiThere) Unrevised (call false) initial))
  = calls initial.
Proof.
  apply (no_callback_no_invocation (host := answering 5 hiThere)
           Unrevised (call false) initial).
  reflexivity.
Defined.

Lemma reader_never_left_locked_witness :
  readerLocked (snd (generateResponse (host := answering 5 brokenStream)
                       Revised (call true) initial)) = false.
Proof.
  apply (reader_never_left_locked (host := answering 5 brokenStream)
           Revised (call true) initial).
  reflexivity.
Defined.

Lemma success_has_text_and_time_to_response_witness :
  trim (text (mkGeminiResponse (js "Hi there") 5 None)) <> [] /\
  exists response,
    snd (fetch_reply (Host := answering 5 hiThere) (request Revised (call false)))
    = Normal response /\
    durationMs (mkGeminiResponse (js "Hi there") 5 None)
    = fst (fetch_reply (Host := answering 5 hiThere) (request Revised (call false))).
Proof.
  apply (success_has_text_and_time_to_response (host := answering 5 hiThere)
           Revised (call false) initial (st' := leaves Revised 9 false [])).
  - vm_compute. reflexivity.
  - reflexivity.
Defined.

Lemma failure_duration_is_elapsed_time_witness :
  durationMs (mkGeminiResponse
                (js "API密钥无效或已过期。请检查您的 Gemini API 密钥配置。")
                9 (Some (js "API key not valid")))
  = now (leaves Revised 9 false []) - now initial.
Proof.
  apply (failure_duration_is_elapsed_time (host := answering 5 badKey)
           Revised (call false) initial).
  - vm_compute. reflexivity.
  - discriminate.
Defined.

Lemma network_failure_is_network_error_witness :
  generateResponse (host := offline) Revised (call true) initial
  = (Normal (mkGeminiResponse
               (worded Revised "网络连接错误，请检查网络后重试。"
                               "网络连接错误，请检查网络连接后重试。")
               0 (Some (js "Network error"))),
     arrived Revised (call true) initial 0).
Proof.
  apply (network_failure_is_network_error (host := offline)
           Revised (call true) initial (m := js "Failed to fetch"));
    vm_compute; reflexivity.
Defined.

Lemma foreign_throw_is_unknown_error_witness :
  generateResponse (host := engine (fun _ => (2, Throw OtherValue)))
    Unrevised (call false) initial
  = (Normal (mkGeminiResponse
               (worded Unrevised "与 Gemini 通信时发生未知错误。"
                                 "与Gemini通信时发生未知错误。")
               2 (Some (js "Unknown Gemini error"))),
     arrived Unrevised (call false) initial 2).
Proof.
  apply (foreign_throw_is_unknown_error
           (host := engine (fun _ => (2, Throw OtherValue)))
           Unrevised (call false) initial);
    reflexivity.
Defined.

Lemma first_candidate_texts_are_joined_witness :
  candidatesText (host := offline) fullReplyValue
  = Normal (List.concat [js "Hi"; js " there"]).
Proof.
  apply (first_candidate_texts_are_joined (host := offline)).
  reply_shape.
Defined.

Lemma non_streaming_success_witness :
  generateResponse (host := answering 5 fullReply) Revised (call false) initial
  = (Normal (mkGeminiResponse (List.concat [js "Hi"; js " there"]) 5 None),
     later (arrived Revised (call false) initial 5)
           (total_latency (bodyOf fullReply)) []).
Proof.
  apply (non_streaming_success (host := answering 5 fullReply)
           Revised (call false) initial (data := fullReplyValue)).
  - reflexivity.
  - reflexivity.
  - reflexivity.
  - reflexivity.
  - vm_compute. reflexivity.
  - reply_shape.
  - vm_compute. discriminate.
Defined.

Lemma blank_text_is_reported_as_missing_model_witness :
  generateResponse (host := answering 5 blankReply) Revised (call false) initial
  = (Normal (mkGeminiResponse
               (js "模型 " ++ modelName (call false)
                   ++ worded Revised " 不存在或无权访问。请检查模型名称或 API 权限。"
                                     " 不存在或无权访问。请检查模型名称或API权限。")
               (5 + total_latency (bodyOf blankReply))
               (Some (js "Model not found"))),
     later (arrived Revised (call false) initial 5)
           (total_latency (bodyOf blankReply)) []).
Proof.
  eapply (blank_text_is_reported_as_missing_model (host := answering 5 blankReply)
            Revised (call false) initial (t := js "  ")).
  - reflexivity.
  - reflexivity.
  - reflexivity.
  - reflexivity.
  - vm_compute. reflexivity.
  - vm_compute. reflexivity.
  - reflexivity.
Defined.

Lemma status_401_is_invalid_key_witness :
  fst (generateResponse (host := answering 5 badKey) Revised (call false) initial)
  = Normal (mkGeminiResponse
              (worded Revised "API密钥无效或已过期。请检查您的 Gemini API 密钥配置。"
                              "API密钥无效或已过期。请检查您的Gemini API密钥配置。")
              (5 + total_latency (bodyOf badKey))
              (Some (js "API key not valid"))).
Proof.
  eapply (HttpErrors.status_401_is_invalid_key (host := answering 5 badKey)
            Revised (call false) initial).
  - reflexivity.
  - reflexivity.
  - reflexivity.
  - vm_compute. reflexivity.
  - vm_compute. reflexivity.
Defined.


(** ** The decode loop *)

Lemma streamed_text_is_the_fragments_joined_witness :
  exists evs,
    calls (leaves Revised 9 true
             [mkStreamCall (js "Hel") (js "Hel") false;
              mkStreamCall (js "lo") (js "Hello") false;
              mkStreamCall [] (js "Hello") true])
    = calls initial ++ evs /\
    text (mkGeminiResponse (js "Hello") 5 None) = List.concat (map newChunk evs).
Proof.
  eapply (streamed_text_is_the_fragments_joined (host := answering 5 hello)
            Revised (call true) initial).
  - reflexivity.
  - reflexivity.
  - reflexivity.
  - vm_compute. reflexivity.
  - reflexivity.
Defined.

Lemma broken_stream_is_an_error_witness :
  fst (generateResponse (host := answering 5 brokenStream) Revised (call true) initial)
  = Normal (recover Revised (call true)
              (5 + total_latency (bodyOf brokenStream))
              (ErrorObject (js "network error"))) /\
  calls (snd (generateResponse (host := answering 5 brokenStream)
                Revised (call true) initial))
  = calls (snd (readStream (host := answering 5 brokenStream) (bodyOf brokenStream)
                  (arrived Revised (call true) initial 5))).
Proof.
  apply (broken_stream_is_an_error (host := answering 5 brokenStream)
           Revised (call true) initial (response := brokenStream));
    reflexivity.
Defined.

Lemma terminal_call_exactly_once_witness :
  exists texts,
    Forall (fun c => isComplete c = false /\ newChunk c <> []) texts /\
    calls (snd (readStream (host := offline) helloByLine initial))
    = calls initial ++ texts
        ++ [mkStreamCall []
              (fst (scanReads (host := offline) []
                      (map (fun rd => framesOf (snd rd)) (reads helloByLine)))) true].
Proof.
  apply (Scenarios.terminal_call_exactly_once (host := offline) helloByLine initial).
  - vm_compute. reflexivity.
  - vm_compute. reflexivity.
Defined.

Lemma sentinel_ends_the_read_witness :
  for_lines (host := offline) (js "Hi")
    ([] ++ js "data: [DONE]"
        :: [json "data: {'candidates':[{'content':{'parts':[{'text':'late'}]}}]}"])
    initial
  = for_lines (host := offline) (js "Hi") ([] ++ [js "data: [DONE]"]) initial.
Proof.
  apply (sentinel_ends_the_read (host := offline)). reflexivity.
Defined.

Lemma other_lines_are_ignored_witness :
  for_lines (host := offline) []
    ([js "event: message"] ++ js ": keep-alive"
        :: [json "data: {'candidates':[{'content':{'parts':[{'text':'Hi'}]}}]}"])
    initial
  = for_lines (host := offline) []
    ([js "event: message"]
        ++ [json "data: {'candidates':[{'content':{'parts':[{'text':'Hi'}]}}]}"])
    initial.
Proof.
  apply (other_lines_are_ignored (host := offline)). reflexivity.
Defined.

Lemma frame_of_another_shape_is_skipped_witness :
  payload (host := offline) (js "Hel") (slice 6 (trim (js "data: null"))) initial
  = (Normal (js "Hel"), initial) /\
  for_lines (host := offline) (js "Hel")
    ([] ++ js "data: null"
        :: [json "data: {'candidates':[{'content':{'parts':[{'text':'lo'}]}}]}"])
    initial
  = for_lines (host := offline) (js "Hel")
    ([] ++ [json "data: {'candidates':[{'content':{'parts':[{'text':'lo'}]}}]}"])
    initial.
Proof.
  eapply (frame_of_another_shape_is_skipped (host := offline) (js "Hel") []).
  - reflexivity.
  - vm_compute. reflexivity.
  - vm_compute. reflexivity.
Defined.

Lemma text_frame_is_reported_once_witness :
  for_lines (host := offline) (js "Hel")
    (json "data: {'candidates':[{'content':{'parts':[{'text':'l'},{'text':'o'}]}}]}"
       :: [js "data: [DONE]"])
    initial
  = for_lines (host := offline) (js "Hel" ++ List.concat [js "l"; js "o"])
      [js "data: [DONE]"]
      (addCalls initial
         [mkStreamCall (List.concat [js "l"; js "o"])
                       (js "Hel" ++ List.concat [js "l"; js "o"]) false]).
Proof.
  eapply (text_frame_is_reported_once (host := offline) (js "Hel")).
  - reflexivity.
  - vm_compute. reflexivity.
  - reply_shape.
  - discriminate.
Defined.

(** ** The router and the probe *)

Lemma router_to_gemini_returns_witness :
  exists r st',
    AiService.generateResponse (host := answering 5 hiThere)
      (fun _ => throw OtherValue) Revised (call false) initial
    = (Normal r, st').
Proof.
  apply (Scenarios.router_to_gemini_returns (host := answering 5 hiThere)).
  vm_compute. reflexivity.
Defined.

Lemma trailing_slash_is_immaterial_witness :
  ApiTestService.probe (host := offline)
    (js "https://api.openai.com/v1" ++ js "/") (js "sk-1") None
  = ApiTestService.probe (host := offline)
    (js "https://api.openai.com/v1") (js "sk-1") None.
Proof.
  apply (trailing_slash_is_immaterial (host := offline)).
  - vm_compute. reflexivity.
  - vm_compute. reflexivity.
Defined.

(** ** Statuses and replies without a body *)

Lemma other_status_hands_the_message_on_witness :
  fst (generateResponse (host := answering 5 unavailable) Revised (call false) initial)
  = Normal (mkGeminiResponse
              (worded Revised "与 Gemini 通信时出错: " "与Gemini通信时出错: "
                 ++ js "Gemini API 错误 (" ++ decimal (status unavailable)
                 ++ js "): " ++ js "Service Unavailable")
              (5 + total_latency (bodyOf unavailable))
              (Some (js "Gemini API 错误 (" ++ decimal (status unavailable)
                        ++ js "): " ++ js "Service Unavailable"))).
Proof.
  eapply (other_status_hands_the_message_on (host := answering 5 unavailable)
            Revised (call false) initial).
  - reflexivity.
  - reflexivity.
  - reflexivity.
  - discriminate.
  - discriminate.
  - discriminate.
  - vm_compute. reflexivity.
  - vm_compute. reflexivity.
  - vm_compute. reflexivity.
  - vm_compute. reflexivity.
Defined.

Lemma no_body_no_invocation_witness :
  calls (snd (generateResponse (host := answering 5 (mkResponse 200 (js "OK") None))
                Revised (call true) initial))
  = calls initial.
Proof.
  apply (no_body_no_invocation (host := answering 5 (mkResponse 200 (js "OK") None))
           Revised (call true) initial (dt := 5)
           (response := mkResponse 200 (js "OK") None));
    reflexivity.
Defined.
